(** * DebuggerAttachEventController

    A shallow embedding of [src/devtools/DebuggerAttachEventController.ts]:
    the permission subject, the counter subjects, the binary transition
    subject with its asynchronous actions, the three subscriptions that govern
    them, and [sendCommand].

    RxJS delivers values synchronously and re-entrantly: a [next] inside a
    subscriber runs the whole downstream chain before it returns.  The model
    keeps that order.  The only suspension points are the chrome callbacks
    (attach, detach, sendCommand); each of them is an event of its own. *)

From Stdlib Require Import ZArith List String Bool Lia.
Import ListNotations.

Local Open Scope Z_scope.

(** ** Enumerations *)

Inductive AttachPermission : Type :=
| UNKNOWN
| TEMPORARY
| REJECTED.

Inductive BinaryTransition : Type :=
| DEACTIVATING
| IS_INACTIVE
| ACTIVATING
| IS_ACTIVE.

Definition permission_eqb (a b : AttachPermission) : bool :=
  match a, b with
  | UNKNOWN, UNKNOWN | TEMPORARY, TEMPORARY | REJECTED, REJECTED => true
  | _, _ => false
  end.

Definition transition_eqb (a b : BinaryTransition) : bool :=
  match a, b with
  | DEACTIVATING, DEACTIVATING | IS_INACTIVE, IS_INACTIVE
  | ACTIVATING, ACTIVATING | IS_ACTIVE, IS_ACTIVE => true
  | _, _ => false
  end.

(** ** PermissionSubject

    A [BehaviorSubject] is a cell: [value] reads it, [next] writes it and
    notifies.  Each method is given as the value it passes to [next], if it
    calls [next] at all. *)

Module PermissionSubject.

Definition initial : AttachPermission := UNKNOWN.

Definition grantTemporary (value : AttachPermission) : option AttachPermission :=
  if permission_eqb value UNKNOWN then Some TEMPORARY else None.

Definition reject (value : AttachPermission) : option AttachPermission :=
  if negb (permission_eqb value REJECTED) then Some REJECTED else None.

(** The cell after a method ran. *)
Definition after (value : AttachPermission) (sent : option AttachPermission)
  : AttachPermission :=
  match sent with
  | Some v => v
  | None => value
  end.

Inductive Call : Type :=
| GrantTemporary
| Reject.

Definition call (value : AttachPermission) (c : Call) : AttachPermission :=
  match c with
  | GrantTemporary => after value (grantTemporary value)
  | Reject => after value (reject value)
  end.

Definition calls (cs : list Call) (value : AttachPermission) : AttachPermission :=
  fold_left call cs value.

End PermissionSubject.

(** ** BinaryTransitionSubject: descriptions and settlement

    The [action] field of a description is a chrome call; its result reaches
    the model as an [Outcome]. *)

Record BinaryTransitionDescription : Type := {
  beginningState : BinaryTransition;
  intermediateState : BinaryTransition;
  successState : BinaryTransition;
  errorState : BinaryTransition
}.

Definition activateTransition : BinaryTransitionDescription := {|
  beginningState := IS_INACTIVE;
  intermediateState := ACTIVATING;
  successState := IS_ACTIVE;
  errorState := IS_INACTIVE
|}.

Definition deactivateTransition : BinaryTransitionDescription := {|
  beginningState := IS_ACTIVE;
  intermediateState := DEACTIVATING;
  successState := IS_INACTIVE;
  errorState := IS_INACTIVE
|}.

(** What an action fails with: [chrome.runtime.lastError], an object whose
    [message] may be missing. *)
Record ErrorValue : Type := { message : option string }.

Definition errorWith (m : string) : ErrorValue := {| message := Some m |}.
Definition errorWithoutMessage : ErrorValue := {| message := None |}.

Inductive Outcome : Type :=
| Completed
| Failed (err : ErrorValue).

(** What the tail of the [concat ... catchError] pipeline hands to its
    subscriber once the action has settled: one value for [next], nothing
    ([EMPTY]), or an exception raised inside the [catchError] selector, which
    the subscriber (it has no [error] callback) leaves unhandled. *)
Inductive Settlement : Type :=
| Next (v : BinaryTransition)
| Empty
| Thrown.

Definition alreadyAttached : string := "Another debugger is already attached"%string.

Module BinaryTransitionSubject.

(** [defer(() => this.value === intermediateState ? of(successState) : EMPTY)] *)
Definition onComplete (d : BinaryTransitionDescription) (value : BinaryTransition)
  : Settlement :=
  if transition_eqb value (intermediateState d) then Next (successState d) else Empty.

(** The [catchError] selector.  [err.message.startsWith] raises a
    [TypeError] when [err.message] is [undefined]. *)
Definition onError (d : BinaryTransitionDescription) (value : BinaryTransition)
  (err : ErrorValue) : Settlement :=
  match message err with
  | None => Thrown
  | Some m =>
      if String.prefix alreadyAttached m then
        if transition_eqb value (intermediateState d)
        then Next (successState d) else Empty
      else
        Next (if transition_eqb value (intermediateState d)
              then errorState d else beginningState d)
  end.

Definition settle (d : BinaryTransitionDescription) (value : BinaryTransition)
  (o : Outcome) : Settlement :=
  match o with
  | Completed => onComplete d value
  | Failed err => onError d value err
  end.

(** The cell after the settlement was delivered to [this.next]. *)
Definition after (value : BinaryTransition) (s : Settlement) : BinaryTransition :=
  match s with
  | Next v => v
  | Empty | Thrown => value
  end.

End BinaryTransitionSubject.

(** ** The combined state and the controller's stores *)

Record DebuggerAttachEventState : Type := {
  permission : AttachPermission;
  attachInterest : Z;
  attachState : BinaryTransition;
  webAudioEventInterest : Z;
  webAudioEventState : BinaryTransition
}.

(** The comparator given to [distinctUntilChanged]. *)
Definition sameState (previous current : DebuggerAttachEventState) : bool :=
  permission_eqb (permission previous) (permission current)
  && (attachInterest previous =? attachInterest current)
  && transition_eqb (attachState previous) (attachState current)
  && (webAudioEventInterest previous =? webAudioEventInterest current)
  && transition_eqb (webAudioEventState previous) (webAudioEventState current).

Definition setPermission (v : AttachPermission) (s : DebuggerAttachEventState) :=
  {| permission := v;
     attachInterest := attachInterest s;
     attachState := attachState s;
     webAudioEventInterest := webAudioEventInterest s;
     webAudioEventState := webAudioEventState s |}.

Definition setAttachInterest (v : Z) (s : DebuggerAttachEventState) :=
  {| permission := permission s;
     attachInterest := v;
     attachState := attachState s;
     webAudioEventInterest := webAudioEventInterest s;
     webAudioEventState := webAudioEventState s |}.

Definition setAttachState (v : BinaryTransition) (s : DebuggerAttachEventState) :=
  {| permission := permission s;
     attachInterest := attachInterest s;
     attachState := v;
     webAudioEventInterest := webAudioEventInterest s;
     webAudioEventState := webAudioEventState s |}.

Definition setWebAudioEventInterest (v : Z) (s : DebuggerAttachEventState) :=
  {| permission := permission s;
     attachInterest := attachInterest s;
     attachState := attachState s;
     webAudioEventInterest := v;
     webAudioEventState := webAudioEventState s |}.

Definition setWebAudioEventState (v : BinaryTransition) (s : DebuggerAttachEventState) :=
  {| permission := permission s;
     attachInterest := attachInterest s;
     attachState := attachState s;
     webAudioEventInterest := webAudioEventInterest s;
     webAudioEventState := v |}.

(** Everything the controller object holds between two events.

    - [subjects]: the values of the five [BehaviorSubject]s, which is also
      what [combineLatest] would emit now;
    - [previous]: the key kept by [distinctUntilChanged], the last combined
      state that was delivered;
    - [attachActions], [webAudioEventActions]: the transitions whose chrome
      call has not called back yet, in the order the calls were made;
    - [waiting]: the [sendCommand] pipelines subscribed to [attachState$] that
      have not seen [IS_ACTIVE] yet (the method each will send);
    - [commands]: the [sendCommand] pipelines whose chrome call is in flight;
    - [unhandled]: how many errors reached a subscriber without an [error]
      callback. *)
Record Controller : Type := {
  subjects : DebuggerAttachEventState;
  previous : DebuggerAttachEventState;
  attachActions : list BinaryTransitionDescription;
  webAudioEventActions : list BinaryTransitionDescription;
  waiting : list string;
  commands : list string;
  unhandled : nat
}.

Definition withSubjects (s : DebuggerAttachEventState) (c : Controller) : Controller :=
  {| subjects := s;
     previous := previous c;
     attachActions := attachActions c;
     webAudioEventActions := webAudioEventActions c;
     waiting := waiting c;
     commands := commands c;
     unhandled := unhandled c |}.

Definition withPrevious (s : DebuggerAttachEventState) (c : Controller) : Controller :=
  {| subjects := subjects c;
     previous := s;
     attachActions := attachActions c;
     webAudioEventActions := webAudioEventActions c;
     waiting := waiting c;
     commands := commands c;
     unhandled := unhandled c |}.

Definition withAttachActions (l : list BinaryTransitionDescription) (c : Controller) :=
  {| subjects := subjects c;
     previous := previous c;
     attachActions := l;
     webAudioEventActions := webAudioEventActions c;
     waiting := waiting c;
     commands := commands c;
     unhandled := unhandled c |}.

Definition withWebAudioEventActions (l : list BinaryTransitionDescription) (c : Controller) :=
  {| subjects := subjects c;
     previous := previous c;
     attachActions := attachActions c;
     webAudioEventActions := l;
     waiting := waiting c;
     commands := commands c;
     unhandled := unhandled c |}.

Definition withWaiting (l : list string) (c : Controller) : Controller :=
  {| subjects := subjects c;
     previous := previous c;
     attachActions := attachActions c;
     webAudioEventActions := webAudioEventActions c;
     waiting := l;
     commands := commands c;
     unhandled := unhandled c |}.

Definition withCommands (l : list string) (c : Controller) : Controller :=
  {| subjects := subjects c;
     previous := previous c;
     attachActions := attachActions c;
     webAudioEventActions := webAudioEventActions c;
     waiting := waiting c;
     commands := l;
     unhandled := unhandled c |}.

Definition withUnhandled (n : nat) (c : Controller) : Controller :=
  {| subjects := subjects c;
     previous := previous c;
     attachActions := attachActions c;
     webAudioEventActions := webAudioEventActions c;
     waiting := waiting c;
     commands := commands c;
     unhandled := n |}.

(** The two [BinaryTransitionSubject]s of [debuggerSubject]. *)
Inductive Subject : Type :=
| AttachState
| WebAudioEventState.

Definition valueOf (x : Subject) (c : Controller) : BinaryTransition :=
  match x with
  | AttachState => attachState (subjects c)
  | WebAudioEventState => webAudioEventState (subjects c)
  end.

Definition store (x : Subject) (v : BinaryTransition) (c : Controller) : Controller :=
  match x with
  | AttachState => withSubjects (setAttachState v (subjects c)) c
  | WebAudioEventState => withSubjects (setWebAudioEventState v (subjects c)) c
  end.

Definition started (x : Subject) (d : BinaryTransitionDescription) (c : Controller)
  : Controller :=
  match x with
  | AttachState => withAttachActions (attachActions c ++ [d]) c
  | WebAudioEventState => withWebAudioEventActions (webAudioEventActions c ++ [d]) c
  end.

(** Every waiting [sendCommand] pipeline passes [filter] and [take(1)] and
    makes its chrome call. *)
Definition startWaiting (c : Controller) : Controller :=
  withWaiting [] (withCommands (commands c ++ waiting c) c).

Definition bind {A B : Type} (m : option A) (k : A -> option B) : option B :=
  match m with
  | Some a => k a
  | None => None
  end.

Notation "x <- m ;; k" := (bind m (fun x => k))
  (at level 61, m at next level, right associativity).

(** ** The subscriptions

    [deliver] is what happens when one of the five subjects calls [next]:
    [combineLatest] emits the current values, [distinctUntilChanged] drops
    them if they equal the last delivered ones, and [share]'s subject hands
    them first to the subscription that governs the attachment, then to the
    one that governs web audio events.  A subscription that calls [next] on a
    transition subject re-enters [deliver] before it returns: that inner
    delivery is the parameter [redeliver]. *)

Section Subscriptions.

Variable redeliver : Controller -> option Controller.

(** [BehaviorSubject.next] on a transition subject.  The observers of
    [attachState$] are [combineLatest] (subscribed in the constructor) and
    then the waiting [sendCommand] pipelines. *)
Definition next (x : Subject) (v : BinaryTransition) (c : Controller)
  : option Controller :=
  c1 <- redeliver (store x v c) ;;
  Some (match x with
        | AttachState => if transition_eqb v IS_ACTIVE then startWaiting c1 else c1
        | WebAudioEventState => c1
        end).

(** [transition]: [of(intermediateState)] reaches [next] at once; the
    action is subscribed, so the chrome call made, when that returns. *)
Definition transition (x : Subject) (d : BinaryTransitionDescription) (c : Controller)
  : option Controller :=
  if transition_eqb (valueOf x c) (beginningState d) then
    c1 <- next x (intermediateState d) c ;;
    Some (started x d c1)
  else Some c.

Definition activate (x : Subject) := transition x activateTransition.
Definition deactivate (x : Subject) := transition x deactivateTransition.

(** Govern attachment to [chrome.debugger]. *)
Definition governAttachment (state : DebuggerAttachEventState) (c : Controller)
  : option Controller :=
  if permission_eqb (permission state) TEMPORARY && (0 <? attachInterest state)
  then activate AttachState c
  else deactivate AttachState c.

(** Govern receiving web audio events through [chrome.debugger.onEvent]. *)
Definition governWebAudioEvents (state : DebuggerAttachEventState) (c : Controller)
  : option Controller :=
  if transition_eqb (attachState state) IS_ACTIVE && (0 <? webAudioEventInterest state)
  then activate WebAudioEventState c
  else if transition_eqb (attachState state) IS_ACTIVE
       then deactivate WebAudioEventState c
       else next WebAudioEventState IS_INACTIVE c.

Definition deliverBody (c : Controller) : option Controller :=
  let state := subjects c in
  if sameState (previous c) state then Some c
  else
    c1 <- governAttachment state (withPrevious state c) ;;
    governWebAudioEvents state c1.

End Subscriptions.

(** The nesting of deliveries is bounded by [fuel]; [deliver_total] below
    shows that [depth] is enough from every state. *)
Fixpoint deliver (fuel : nat) (c : Controller) : option Controller :=
  match fuel with
  | O => None
  | S n => deliverBody (deliver n) c
  end.

Definition depth : nat := 4%nat.

(** ** The operations of the controller

    Each of these is one event of the single-threaded event loop: a call made
    by the extension, a [chrome.debugger.onDetach] notification, or a chrome
    callback.  Each runs the synchronous chain of deliveries to its end. *)

Definition nextPermission (v : AttachPermission) (c : Controller) : option Controller :=
  deliver depth (withSubjects (setPermission v (subjects c)) c).

Definition nextAttachInterest (v : Z) (c : Controller) : option Controller :=
  deliver depth (withSubjects (setAttachInterest v (subjects c)) c).

Definition nextWebAudioEventInterest (v : Z) (c : Controller) : option Controller :=
  deliver depth (withSubjects (setWebAudioEventInterest v (subjects c)) c).

Definition nextState (x : Subject) (v : BinaryTransition) (c : Controller)
  : option Controller :=
  next (deliver depth) x v c.

Definition grantTemporary (c : Controller) : option Controller :=
  match PermissionSubject.grantTemporary (permission (subjects c)) with
  | Some v => nextPermission v c
  | None => Some c
  end.

Definition reject (c : Controller) : option Controller :=
  match PermissionSubject.reject (permission (subjects c)) with
  | Some v => nextPermission v c
  | None => Some c
  end.

Module CounterSubject.
Definition increment (value : Z) : Z := value + 1.
Definition decrement (value : Z) : Z := value - 1.
End CounterSubject.

Definition canceledByUser : string := "canceled_by_user"%string.

(** The subscription to [onDebuggerDetach$]. *)
Definition onDebuggerDetach (reason : string) (c : Controller) : option Controller :=
  c1 <- (if String.eqb reason canceledByUser then reject c else Some c) ;;
  nextState AttachState IS_INACTIVE c1.

(** [sendCommand(method)], with the returned observable subscribed once, at
    the call.  A [BehaviorSubject] hands its current value to a new
    subscriber at once. *)
Definition sendCommand (method : string) (c : Controller) : option Controller :=
  c1 <- nextAttachInterest (CounterSubject.increment (attachInterest (subjects c))) c ;;
  Some (if transition_eqb (attachState (subjects c1)) IS_ACTIVE
        then withCommands (commands c1 ++ [method]) c1
        else withWaiting (waiting c1 ++ [method]) c1).

Definition removeAt {A : Type} (i : nat) (l : list A) : list A :=
  firstn i l ++ skipn (S i) l.

Definition actionsOf (x : Subject) (c : Controller) : list BinaryTransitionDescription :=
  match x with
  | AttachState => attachActions c
  | WebAudioEventState => webAudioEventActions c
  end.

Definition withActions (x : Subject) (l : list BinaryTransitionDescription)
  (c : Controller) : Controller :=
  match x with
  | AttachState => withAttachActions l c
  | WebAudioEventState => withWebAudioEventActions l c
  end.

(** The chrome call of the [i]-th transition in flight on [x] calls back. *)
Definition actionSettled (x : Subject) (i : nat) (o : Outcome) (c : Controller)
  : option Controller :=
  match nth_error (actionsOf x c) i with
  | None => None
  | Some d =>
      let c1 := withActions x (removeAt i (actionsOf x c)) c in
      match BinaryTransitionSubject.settle d (valueOf x c1) o with
      | Next v => nextState x v c1
      | Empty => Some c1
      | Thrown => Some (withUnhandled (S (unhandled c1)) c1)
      end
  end.

(** The chrome call of the [i]-th command in flight calls back; [finalize]
    runs whether it completed or failed. *)
Definition commandSettled (i : nat) (o : Outcome) (c : Controller) : option Controller :=
  match nth_error (commands c) i with
  | None => None
  | Some _ =>
      nextAttachInterest (CounterSubject.decrement (attachInterest (subjects c)))
        (withCommands (removeAt i (commands c)) c)
  end.

Inductive Event : Type :=
| GrantTemporary
| Reject
| IncrementAttachInterest
| DecrementAttachInterest
| IncrementWebAudioEventInterest
| DecrementWebAudioEventInterest
| DebuggerDetached (reason : string)
| ActionSettled (x : Subject) (i : nat) (o : Outcome)
| SendCommand (method : string)
| CommandSettled (i : nat) (o : Outcome).

(** [None]: the event cannot happen in this state (no such call in flight). *)
Definition step (c : Controller) (e : Event) : option Controller :=
  match e with
  | GrantTemporary => grantTemporary c
  | Reject => reject c
  | IncrementAttachInterest =>
      nextAttachInterest (CounterSubject.increment (attachInterest (subjects c))) c
  | DecrementAttachInterest =>
      nextAttachInterest (CounterSubject.decrement (attachInterest (subjects c))) c
  | IncrementWebAudioEventInterest =>
      nextWebAudioEventInterest
        (CounterSubject.increment (webAudioEventInterest (subjects c))) c
  | DecrementWebAudioEventInterest =>
      nextWebAudioEventInterest
        (CounterSubject.decrement (webAudioEventInterest (subjects c))) c
  | DebuggerDetached reason => onDebuggerDetach reason c
  | ActionSettled x i o => actionSettled x i o c
  | SendCommand method => sendCommand method c
  | CommandSettled i o => commandSettled i o c
  end.

Fixpoint run (c : Controller) (es : list Event) : option Controller :=
  match es with
  | [] => Some c
  | e :: es' => c1 <- step c e ;; run c1 es'
  end.

(** The controller when the constructor returns: the first combined state
    went through [distinctUntilChanged] to the attachment subscription, whose
    [deactivate] found [IS_INACTIVE] and did nothing. *)
Definition initialState : DebuggerAttachEventState := {|
  permission := PermissionSubject.initial;
  attachInterest := 0;
  attachState := IS_INACTIVE;
  webAudioEventInterest := 0;
  webAudioEventState := IS_INACTIVE
|}.

Definition initial : Controller := {|
  subjects := initialState;
  previous := initialState;
  attachActions := [];
  webAudioEventActions := [];
  waiting := [];
  commands := [];
  unhandled := 0
|}.

Definition reachable (c : Controller) : Prop :=
  exists es, run initial es = Some c.

(** ** Predicates of the statements *)

(** The relation the third subscription maintains: web audio events are
    received, or being switched, only while the attachment is active. *)
Definition Coupled (s : DebuggerAttachEventState) : Prop :=
  webAudioEventState s <> IS_INACTIVE -> attachState s = IS_ACTIVE.

(** A controller at rest: the last delivered combined state is the current
    one, and it is coupled. *)
Definition Settled (c : Controller) : Prop :=
  previous c = subjects c /\ Coupled (subjects c).

(** What [deliver] needs of the state it is called in: if nothing is going
    to be delivered, the state is already coupled. *)
Definition Admissible (c : Controller) : Prop :=
  previous c = subjects c -> Coupled (subjects c).

(** What the subscriptions never write: the permission, the counters, the
    [sendCommand] pipelines and the count of unhandled errors. *)
Definition Framed (c c' : Controller) : Prop :=
  permission (subjects c') = permission (subjects c)
  /\ attachInterest (subjects c') = attachInterest (subjects c)
  /\ webAudioEventInterest (subjects c') = webAudioEventInterest (subjects c)
  /\ waiting c' = waiting c
  /\ commands c' = commands c
  /\ unhandled c' = unhandled c.

(** The events that can happen in a state: a callback needs its call in
    flight. *)
Definition enabled (c : Controller) (e : Event) : Prop :=
  match e with
  | ActionSettled x i _ => (i < List.length (actionsOf x c))%nat
  | CommandSettled i _ => (i < List.length (commands c))%nat
  | _ => True
  end.

(** The attachment subject after it was forced to [IS_INACTIVE]: still
    there, or in a new activation that the permission and the interest
    allow. *)
Definition Reattaching (s : DebuggerAttachEventState) : Prop :=
  attachState s = IS_INACTIVE
  \/ (attachState s = ACTIVATING /\ permission s = TEMPORARY /\ 0 < attachInterest s).

(** The requests that called [sendCommand] and have not settled. *)
Definition unsettled (c : Controller) : Z :=
  Z.of_nat (List.length (waiting c) + List.length (commands c)).

(** What the consumers other than [sendCommand] added to the attachment
    interest. *)
Definition consumerInterest (e : Event) : Z :=
  match e with
  | IncrementAttachInterest => 1
  | DecrementAttachInterest => -1
  | _ => 0
  end.

(** The same, summed over a sequence of events. *)
Definition consumersInterest (es : list Event) : Z :=
  fold_right (fun e n => consumerInterest e + n) 0 es.

(** What the first subscription asks before it activates the attachment. *)
Definition attachmentWanted (s : DebuggerAttachEventState) : Prop :=
  permission s = TEMPORARY /\ 0 < attachInterest s.

(** What one delivery can do to the attachment subject: nothing, or start an
    activation that is wanted, or start a deactivation of an attachment that
    is not wanted. *)
Definition AttachEffect (c c' : Controller) : Prop :=
  (attachState (subjects c') = attachState (subjects c)
   /\ attachActions c' = attachActions c)
  \/ (attachState (subjects c) = IS_INACTIVE
      /\ attachmentWanted (subjects c)
      /\ attachState (subjects c') = ACTIVATING
      /\ attachActions c' = attachActions c ++ [activateTransition])
  \/ (attachState (subjects c) = IS_ACTIVE
      /\ ~ attachmentWanted (subjects c)
      /\ attachState (subjects c') = DEACTIVATING
      /\ attachActions c' = attachActions c ++ [deactivateTransition]).

Definition Effect (c c' : Controller) : Prop :=
  Framed c c' /\ AttachEffect c c'.

(** The [chrome.debugger.attach] calls among the actions in flight. *)
Definition activations (l : list BinaryTransitionDescription) : nat :=
  List.length (filter (fun d => transition_eqb (intermediateState d) ACTIVATING) l).

(** The permission only moves forward in this order. *)
Definition permissionRank (p : AttachPermission) : nat :=
  match p with
  | UNKNOWN => 0
  | TEMPORARY => 1
  | REJECTED => 2
  end.

(** The first subscription has nothing to do in [s]. *)
Definition AttachmentGoverned (s : DebuggerAttachEventState) : Prop :=
  (attachState s = IS_ACTIVE -> attachmentWanted s)
  /\ (attachState s = IS_INACTIVE -> ~ attachmentWanted s).

(** The third subscription has nothing to do in [s]. *)
Definition WebAudioEventsGoverned (s : DebuggerAttachEventState) : Prop :=
  (attachState s <> IS_ACTIVE -> webAudioEventState s = IS_INACTIVE)
  /\ (attachState s = IS_ACTIVE -> 0 < webAudioEventInterest s ->
      webAudioEventState s <> IS_INACTIVE)
  /\ (attachState s = IS_ACTIVE -> webAudioEventInterest s <= 0 ->
      webAudioEventState s <> IS_ACTIVE).

Definition Governed (s : DebuggerAttachEventState) : Prop :=
  AttachmentGoverned s /\ WebAudioEventsGoverned s.

(** A controller at rest whose subscriptions have nothing left to do. *)
Definition AtRest (c : Controller) : Prop :=
  previous c = subjects c /\ Governed (subjects c).

Definition Deliverable (c : Controller) : Prop :=
  previous c = subjects c -> Governed (subjects c).

(** The two descriptions the constructor builds. *)
Definition built (d : BinaryTransitionDescription) : Prop :=
  d = activateTransition \/ d = deactivateTransition.

(** A subject in transit has the call of that transit in flight. *)
Definition Pending (x : Subject) (c : Controller) : Prop :=
  (valueOf x c = ACTIVATING -> In activateTransition (actionsOf x c))
  /\ (valueOf x c = DEACTIVATING -> In deactivateTransition (actionsOf x c)).

(** What one delivery does to the calls in flight of [x]: it keeps them, it
    adds built ones only, and it leaves [x] pending or as it was. *)
Definition Carried (x : Subject) (c c' : Controller) : Prop :=
  incl (actionsOf x c) (actionsOf x c')
  /\ (Forall built (actionsOf x c) -> Forall built (actionsOf x c'))
  /\ (Pending x c' \/ valueOf x c' = valueOf x c).

Definition Accounted (c : Controller) : Prop :=
  Forall built (attachActions c)
  /\ Forall built (webAudioEventActions c)
  /\ (unhandled c = 0%nat -> forall x, Pending x c).

(** What the consumers added to the web audio event interest. *)
Definition listenerInterest (e : Event) : Z :=
  match e with
  | IncrementWebAudioEventInterest => 1
  | DecrementWebAudioEventInterest => -1
  | _ => 0
  end.

Definition listenersInterest (es : list Event) : Z :=
  fold_right (fun e n => listenerInterest e + n) 0 es.

(** ** What an event does, as a trace

    The same subscriptions and operations once more, returning beside the
    controller what could be observed while the event was handled: each
    combined state that passed [distinctUntilChanged], so was handed to the
    subscribers of [combinedState$], and each chrome call a transition made.
    [stepTraced_erases] below shows that the controller returned is the one
    [step] returns. *)

Inductive Observation : Type :=
| Delivered (state : DebuggerAttachEventState)
| Called (x : Subject) (d : BinaryTransitionDescription).

Definition Traced : Type := option (Controller * list Observation).

Definition erase (t : Traced) : option Controller := option_map fst t.

Section TracedSubscriptions.

Variable redeliver : Controller -> Traced.

Definition nextTraced (x : Subject) (v : BinaryTransition) (c : Controller) : Traced :=
  r <- redeliver (store x v c) ;;
  Some (match x with
        | AttachState =>
            if transition_eqb v IS_ACTIVE then startWaiting (fst r) else fst r
        | WebAudioEventState => fst r
        end, snd r).

Definition transitionTraced (x : Subject) (d : BinaryTransitionDescription)
  (c : Controller) : Traced :=
  if transition_eqb (valueOf x c) (beginningState d) then
    r <- nextTraced x (intermediateState d) c ;;
    Some (started x d (fst r), snd r ++ [Called x d])
  else Some (c, []).

Definition governAttachmentTraced (state : DebuggerAttachEventState) (c : Controller)
  : Traced :=
  if permission_eqb (permission state) TEMPORARY && (0 <? attachInterest state)
  then transitionTraced AttachState activateTransition c
  else transitionTraced AttachState deactivateTransition c.

Definition governWebAudioEventsTraced (state : DebuggerAttachEventState)
  (c : Controller) : Traced :=
  if transition_eqb (attachState state) IS_ACTIVE && (0 <? webAudioEventInterest state)
  then transitionTraced WebAudioEventState activateTransition c
  else if transition_eqb (attachState state) IS_ACTIVE
       then transitionTraced WebAudioEventState deactivateTransition c
       else nextTraced WebAudioEventState IS_INACTIVE c.

Definition deliverBodyTraced (c : Controller) : Traced :=
  let state := subjects c in
  if sameState (previous c) state then Some (c, [])
  else
    r1 <- governAttachmentTraced state (withPrevious state c) ;;
    r2 <- governWebAudioEventsTraced state (fst r1) ;;
    Some (fst r2, Delivered state :: snd r1 ++ snd r2).

End TracedSubscriptions.

Fixpoint deliverTraced (fuel : nat) (c : Controller) : Traced :=
  match fuel with
  | O => None
  | S n => deliverBodyTraced (deliverTraced n) c
  end.

Definition nextStateTraced (x : Subject) (v : BinaryTransition) (c : Controller)
  : Traced :=
  nextTraced (deliverTraced depth) x v c.

Definition rejectTraced (c : Controller) : Traced :=
  match PermissionSubject.reject (permission (subjects c)) with
  | Some v => deliverTraced depth (withSubjects (setPermission v (subjects c)) c)
  | None => Some (c, [])
  end.

Definition stepTraced (c : Controller) (e : Event) : Traced :=
  match e with
  | GrantTemporary =>
      match PermissionSubject.grantTemporary (permission (subjects c)) with
      | Some v => deliverTraced depth (withSubjects (setPermission v (subjects c)) c)
      | None => Some (c, [])
      end
  | Reject => rejectTraced c
  | IncrementAttachInterest =>
      deliverTraced depth
        (withSubjects
           (setAttachInterest (CounterSubject.increment (attachInterest (subjects c)))
              (subjects c)) c)
  | DecrementAttachInterest =>
      deliverTraced depth
        (withSubjects
           (setAttachInterest (CounterSubject.decrement (attachInterest (subjects c)))
              (subjects c)) c)
  | IncrementWebAudioEventInterest =>
      deliverTraced depth
        (withSubjects
           (setWebAudioEventInterest
              (CounterSubject.increment (webAudioEventInterest (subjects c)))
              (subjects c)) c)
  | DecrementWebAudioEventInterest =>
      deliverTraced depth
        (withSubjects
           (setWebAudioEventInterest
              (CounterSubject.decrement (webAudioEventInterest (subjects c)))
              (subjects c)) c)
  | DebuggerDetached reason =>
      r1 <- (if String.eqb reason canceledByUser then rejectTraced c else Some (c, [])) ;;
      r2 <- nextStateTraced AttachState IS_INACTIVE (fst r1) ;;
      Some (fst r2, snd r1 ++ snd r2)
  | ActionSettled x i o =>
      match nth_error (actionsOf x c) i with
      | None => None
      | Some d =>
          let c1 := withActions x (removeAt i (actionsOf x c)) c in
          match BinaryTransitionSubject.settle d (valueOf x c1) o with
          | Next v => nextStateTraced x v c1
          | Empty => Some (c1, [])
          | Thrown => Some (withUnhandled (S (unhandled c1)) c1, [])
          end
      end
  | SendCommand method =>
      r <- deliverTraced depth
             (withSubjects
                (setAttachInterest
                   (CounterSubject.increment (attachInterest (subjects c)))
                   (subjects c)) c) ;;
      Some (if transition_eqb (attachState (subjects (fst r))) IS_ACTIVE
            then withCommands (commands (fst r) ++ [method]) (fst r)
            else withWaiting (waiting (fst r) ++ [method]) (fst r), snd r)
  | CommandSettled i o =>
      match nth_error (commands c) i with
      | None => None
      | Some _ =>
          deliverTraced depth
            (withSubjects
               (setAttachInterest
                  (CounterSubject.decrement (attachInterest (subjects c)))
                  (subjects c))
               (withCommands (removeAt i (commands c)) c))
      end
  end.

Fixpoint runTraced (c : Controller) (es : list Event) : Traced :=
  match es with
  | [] => Some (c, [])
  | e :: es' =>
      r1 <- stepTraced c e ;;
      r2 <- runTraced (fst r1) es' ;;
      Some (fst r2, snd r1 ++ snd r2)
  end.

(** The call of [chrome.debugger.attach]. *)
Definition attaches : Observation := Called AttachState activateTransition.

(** ** [sendCommand], the call apart from the subscriptions

    [sendCommand(method)] increments the interest and returns a cold
    observable; the pipeline, with its [finalize], exists once per
    subscription of that observable.  [sendCommand] above is the call followed
    by one subscription ([sendCommand_fused]). *)

Definition sendCommandCall (c : Controller) : option Controller :=
  nextAttachInterest (CounterSubject.increment (attachInterest (subjects c))) c.

Definition sendCommandSubscribe (method : string) (c : Controller) : Controller :=
  if transition_eqb (attachState (subjects c)) IS_ACTIVE
  then withCommands (commands c ++ [method]) c
  else withWaiting (waiting c ++ [method]) c.

(** The subscriber of the [i]-th waiting pipeline unsubscribes; [finalize]
    runs then too. *)
Definition waitingUnsubscribed (i : nat) (c : Controller) : option Controller :=
  match nth_error (waiting c) i with
  | None => None
  | Some _ =>
      nextAttachInterest (CounterSubject.decrement (attachInterest (subjects c)))
        (withWaiting (removeAt i (waiting c)) c)
  end.

(** The controller with the observables its [sendCommand] calls have
    returned (the method each one carries). *)
Record Host : Type := {
  controller : Controller;
  returned : list string
}.

Inductive HostEvent : Type :=
| Controls (e : Event)
| Calls (method : string)
| Subscribes (j : nat)
| Unsubscribes (i : nat).

Definition hostStep (h : Host) (e : HostEvent) : option Host :=
  match e with
  | Controls e =>
      c <- step (controller h) e ;;
      Some {| controller := c; returned := returned h |}
  | Calls method =>
      c <- sendCommandCall (controller h) ;;
      Some {| controller := c; returned := returned h ++ [method] |}
  | Subscribes j =>
      match nth_error (returned h) j with
      | None => None
      | Some method =>
          Some {| controller := sendCommandSubscribe method (controller h);
                  returned := returned h |}
      end
  | Unsubscribes i =>
      c <- waitingUnsubscribed i (controller h) ;;
      Some {| controller := c; returned := returned h |}
  end.

Fixpoint hostRun (h : Host) (es : list HostEvent) : option Host :=
  match es with
  | [] => Some h
  | e :: es' => h1 <- hostStep h e ;; hostRun h1 es'
  end.

Definition initialHost : Host := {| controller := initial; returned := [] |}.

(** The [sendCommand] calls, the subscriptions of their observables, and the
    subscriptions finalized, in a sequence of events. *)
Definition callsIn (e : HostEvent) : Z :=
  match e with
  | Calls _ | Controls (SendCommand _) => 1
  | _ => 0
  end.

Definition subscriptionsIn (e : HostEvent) : Z :=
  match e with
  | Subscribes _ | Controls (SendCommand _) => 1
  | _ => 0
  end.

Definition finalizedIn (e : HostEvent) : Z :=
  match e with
  | Unsubscribes _ | Controls (CommandSettled _ _) => 1
  | _ => 0
  end.

Definition consumerIn (e : HostEvent) : Z :=
  match e with
  | Controls e => consumerInterest e
  | _ => 0
  end.

Definition total (f : HostEvent -> Z) (es : list HostEvent) : Z :=
  fold_right (fun e n => f e + n) 0 es.

(** A [sendCommand] request for [method] that cannot be served: it waits,
    the permission is [REJECTED], and the attachment is inactive with no call
    in flight. *)
Definition Stranded (method : string) (c : Controller) : Prop :=
  permission (subjects c) = REJECTED
  /\ attachState (subjects c) = IS_INACTIVE
  /\ attachActions c = []
  /\ commands c = []
  /\ In method (waiting c).

(** ** Event sequences and states of the examples *)

(** The error of [chrome.debugger.attach] when another client holds the tab. *)
Definition anotherDebugger : ErrorValue :=
  errorWith "Another debugger is already attached to the tab with id: 7.".

(** The error of a chrome call on a tab the debugger is not attached to. *)
Definition notAttached : ErrorValue :=
  errorWith "Debugger is not attached to the tab with id: 7.".

(** Attach, lose the last interest, and have the tab close while [detach]
    is in flight. *)
Definition detachedWhileDeactivating : list Event :=
  [GrantTemporary; IncrementAttachInterest; ActionSettled AttachState 0 Completed;
   DecrementAttachInterest; DebuggerDetached "target_closed"].

(** An activation whose [attach] call failed without a message. *)
Definition stuckActivating : Controller := {|
  subjects := {| permission := TEMPORARY;
                 attachInterest := 1;
                 attachState := ACTIVATING;
                 webAudioEventInterest := 0;
                 webAudioEventState := IS_INACTIVE |};
  previous := {| permission := TEMPORARY;
                 attachInterest := 1;
                 attachState := ACTIVATING;
                 webAudioEventInterest := 0;
                 webAudioEventState := IS_INACTIVE |};
  attachActions := [];
  webAudioEventActions := [];
  waiting := [];
  commands := [];
  unhandled := 1
|}.

(** Attach, then ask for web audio events and have them enabled. *)
Definition attachedAndListening : list Event :=
  [GrantTemporary; IncrementAttachInterest; ActionSettled AttachState 0 Completed;
   IncrementWebAudioEventInterest; ActionSettled WebAudioEventState 0 Completed].

(** The controller after [attachedAndListening]. *)
Definition bothActive : Controller := {|
  subjects := {| permission := TEMPORARY;
                 attachInterest := 1;
                 attachState := IS_ACTIVE;
                 webAudioEventInterest := 1;
                 webAudioEventState := IS_ACTIVE |};
  previous := {| permission := TEMPORARY;
                 attachInterest := 1;
                 attachState := IS_ACTIVE;
                 webAudioEventInterest := 1;
                 webAudioEventState := IS_ACTIVE |};
  attachActions := [];
  webAudioEventActions := [];
  waiting := [];
  commands := [];
  unhandled := 0
|}.

(** The user canceled while [attach] was in flight. *)
Definition detachedWhileActivating : Controller := {|
  subjects := {| permission := REJECTED;
                 attachInterest := 1;
                 attachState := IS_INACTIVE;
                 webAudioEventInterest := 0;
                 webAudioEventState := IS_INACTIVE |};
  previous := {| permission := REJECTED;
                 attachInterest := 1;
                 attachState := IS_INACTIVE;
                 webAudioEventInterest := 0;
                 webAudioEventState := IS_INACTIVE |};
  attachActions := [activateTransition];
  webAudioEventActions := [];
  waiting := [];
  commands := [];
  unhandled := 0
|}.

(** Two [sendCommand] requests waiting for an activation. *)
Definition twoWaiting : Controller := {|
  subjects := {| permission := TEMPORARY;
                 attachInterest := 2;
                 attachState := ACTIVATING;
                 webAudioEventInterest := 0;
                 webAudioEventState := IS_INACTIVE |};
  previous := {| permission := TEMPORARY;
                 attachInterest := 2;
                 attachState := ACTIVATING;
                 webAudioEventInterest := 0;
                 webAudioEventState := IS_INACTIVE |};
  attachActions := [];
  webAudioEventActions := [];
  waiting := ["A"; "B"]%string;
  commands := [];
  unhandled := 0
|}.

(** [twoWaiting] once the attachment is active. *)
Definition twoSent : Controller := {|
  subjects := {| permission := TEMPORARY;
                 attachInterest := 2;
                 attachState := IS_ACTIVE;
                 webAudioEventInterest := 0;
                 webAudioEventState := IS_INACTIVE |};
  previous := {| permission := TEMPORARY;
                 attachInterest := 2;
                 attachState := IS_ACTIVE;
                 webAudioEventInterest := 0;
                 webAudioEventState := IS_INACTIVE |};
  attachActions := [];
  webAudioEventActions := [];
  waiting := [];
  commands := ["A"; "B"]%string;
  unhandled := 0
|}.

(** One [sendCommand] request, served, whose command fails. *)
Definition commandThatFails : list Event :=
  [SendCommand "HeapProfiler.collectGarbage"; GrantTemporary;
   ActionSettled AttachState 0 Completed;
   CommandSettled 0 (Failed (errorWith "Cannot find context"))].

(** The controller after [commandThatFails]: the interest is back at 0 and
    the attachment is being given up. *)
Definition afterCommandThatFails : Controller := {|
  subjects := {| permission := TEMPORARY;
                 attachInterest := 0;
                 attachState := DEACTIVATING;
                 webAudioEventInterest := 0;
                 webAudioEventState := IS_INACTIVE |};
  previous := {| permission := TEMPORARY;
                 attachInterest := 0;
                 attachState := DEACTIVATING;
                 webAudioEventInterest := 0;
                 webAudioEventState := IS_INACTIVE |};
  attachActions := [deactivateTransition];
  webAudioEventActions := [];
  waiting := [];
  commands := [];
  unhandled := 0
|}.

(** [detachingWhileListening] after the tab closed. *)
Definition detachedByTarget : Controller := {|
  subjects := {| permission := TEMPORARY;
                 attachInterest := 0;
                 attachState := IS_INACTIVE;
                 webAudioEventInterest := 1;
                 webAudioEventState := IS_INACTIVE |};
  previous := {| permission := TEMPORARY;
                 attachInterest := 0;
                 attachState := IS_INACTIVE;
                 webAudioEventInterest := 1;
                 webAudioEventState := IS_INACTIVE |};
  attachActions := [deactivateTransition];
  webAudioEventActions := [activateTransition];
  waiting := [];
  commands := [];
  unhandled := 0
|}.

(** The controller after [attachedAndListening] and the loss of the last
    attachment interest; the web audio subscription, run on the combined
    state from before the deactivation, has sent an [enable] command. *)
Definition detachingWhileListening : Controller := {|
  subjects := {| permission := TEMPORARY;
                 attachInterest := 0;
                 attachState := DEACTIVATING;
                 webAudioEventInterest := 1;
                 webAudioEventState := IS_INACTIVE |};
  previous := {| permission := TEMPORARY;
                 attachInterest := 0;
                 attachState := DEACTIVATING;
                 webAudioEventInterest := 1;
                 webAudioEventState := IS_INACTIVE |};
  attachActions := [deactivateTransition];
  webAudioEventActions := [activateTransition];
  waiting := [];
  commands := [];
  unhandled := 0
|}.

(** * Properties *)

(** ** Bookkeeping lemmas *)

Lemma permission_eqb_spec a b : reflect (a = b) (permission_eqb a b).
Proof. destruct a, b; constructor; congruence. Qed.

Lemma transition_eqb_spec a b : reflect (a = b) (transition_eqb a b).
Proof. destruct a, b; constructor; congruence. Qed.

Lemma transition_eqb_refl a : transition_eqb a a = true.
Proof. now destruct a. Qed.

Lemma transition_eqb_neq a b : a <> b -> transition_eqb a b = false.
Proof. destruct (transition_eqb_spec a b); congruence. Qed.

Lemma sameState_spec p c : reflect (p = c) (sameState p c).
Proof.
  destruct p as [p1 a1 s1 w1 e1], c as [p2 a2 s2 w2 e2]; unfold sameState; cbn.
  destruct (permission_eqb_spec p1 p2); cbn; [|constructor; congruence].
  destruct (Z.eqb_spec a1 a2); cbn; [|constructor; congruence].
  destruct (transition_eqb_spec s1 s2); cbn; [|constructor; congruence].
  destruct (Z.eqb_spec w1 w2); cbn; [|constructor; congruence].
  destruct (transition_eqb_spec e1 e2); constructor; congruence.
Qed.

Lemma previous_store x v c : previous (store x v c) = previous c.
Proof. now destruct x. Qed.

Lemma valueOf_store x v c : valueOf x (store x v c) = v.
Proof. now destruct x. Qed.

Lemma store_changes x v c : valueOf x c <> v -> subjects (store x v c) <> subjects c.
Proof.
  intros Hne Heq. apply Hne.
  rewrite <- (valueOf_store x v c). unfold valueOf. now rewrite Heq.
Qed.

Lemma bind_Some {A B : Type} (m : option A) (k : A -> option B) (b : B) :
  bind m k = Some b -> exists a, m = Some a /\ k a = Some b.
Proof. destruct m as [a|]; cbn; [eauto | discriminate]. Qed.

Ltac bind_inv H :=
  let a := fresh "c" in
  let Ha := fresh "H" a in
  apply bind_Some in H; destruct H as (a & Ha & H).

(** ** The attachment outlives the web audio events

    [Coupled] is the relation the third subscription maintains.  [Settled]
    holds of a controller at rest: the last delivered combined state is the
    current one, and it is coupled. *)

Lemma Settled_ext c c' :
  subjects c' = subjects c -> previous c' = previous c -> Settled c -> Settled c'.
Proof. unfold Settled. intros -> ->. auto. Qed.

Lemma Settled_Admissible c c' :
  Settled c -> previous c' = previous c -> Admissible c'.
Proof.
  intros [Hp Hc] Hprev Heq. rewrite <- Heq, Hprev, Hp. exact Hc.
Qed.

Section SubscriptionsSettle.

Variable redeliver : Controller -> option Controller.
Hypothesis redeliver_settles :
  forall c c', Admissible c -> redeliver c = Some c' -> Settled c'.

Lemma next_settles x v c c' :
  Admissible (store x v c) -> next redeliver x v c = Some c' -> Settled c'.
Proof.
  unfold next. intros Hadm H. bind_inv H.
  apply redeliver_settles in Hc0; [|exact Hadm].
  destruct x; [destruct (transition_eqb v IS_ACTIVE)|];
    injection H as <-; exact Hc0.
Qed.

Lemma transition_settles x d c c' :
  intermediateState d <> beginningState d ->
  previous c = subjects c ->
  transition redeliver x d c = Some c' -> c' = c \/ Settled c'.
Proof.
  unfold transition. intros Hd Hp H.
  destruct (transition_eqb_spec (valueOf x c) (beginningState d)) as [Hb|_].
  - right. bind_inv H. injection H as <-.
    apply next_settles in Hc0.
    + destruct x; (eapply Settled_ext; [| |exact Hc0]; reflexivity).
    + intros Heq. exfalso. rewrite previous_store, Hp in Heq.
      symmetry in Heq. revert Heq. apply store_changes. congruence.
  - left. congruence.
Qed.

Lemma governAttachment_settles state c c' :
  previous c = subjects c ->
  governAttachment redeliver state c = Some c' -> c' = c \/ Settled c'.
Proof.
  unfold governAttachment, activate, deactivate. intros Hp H.
  destruct (_ && _); (eapply transition_settles; [|exact Hp|exact H]);
    cbn; discriminate.
Qed.

Lemma governWebAudioEvents_settles state c c' :
  previous c = subjects c ->
  subjects c = state \/ Coupled (subjects c) ->
  governWebAudioEvents redeliver state c = Some c' -> Settled c'.
Proof.
  unfold governWebAudioEvents, activate, deactivate. intros Hp Hc H.
  assert (Hrest : attachState state = IS_ACTIVE -> Settled c).
  { intros Ha. split; [exact Hp|]. destruct Hc as [<-|Hc]; [|exact Hc].
    intros _. exact Ha. }
  destruct (transition_eqb_spec (attachState state) IS_ACTIVE) as [Ha|Ha]; cbn in H.
  - destruct (0 <? webAudioEventInterest state);
      (apply transition_settles in H; [|cbn; discriminate|exact Hp]);
      destruct H as [->|H]; auto.
  - apply next_settles in H; [exact H|].
    intros _ Hw. now destruct Hw.
Qed.

Lemma deliverBody_settles c c' :
  Admissible c -> deliverBody redeliver c = Some c' -> Settled c'.
Proof.
  unfold deliverBody. intros Hadm H.
  destruct (sameState_spec (previous c) (subjects c)) as [Hs|_].
  - injection H as <-. split; auto.
  - bind_inv H.
    apply governAttachment_settles in Hc0; [|reflexivity].
    eapply governWebAudioEvents_settles; [| |exact H].
    + destruct Hc0 as [->|[Hp _]]; [reflexivity|exact Hp].
    + destruct Hc0 as [->|[_ Hc]]; [left; reflexivity|right; exact Hc].
Qed.

End SubscriptionsSettle.

Lemma deliver_settles fuel c c' :
  Admissible c -> deliver fuel c = Some c' -> Settled c'.
Proof.
  revert c c'. induction fuel as [|n IH]; intros c c' Hadm H; [discriminate|].
  cbn [deliver] in H. eapply deliverBody_settles; eauto.
Qed.

Lemma nextState_settles x v c c' :
  Settled c -> nextState x v c = Some c' -> Settled c'.
Proof.
  intros Hs H. eapply next_settles; [apply deliver_settles| |exact H].
  eapply Settled_Admissible; [exact Hs|apply previous_store].
Qed.

Lemma nextPermission_settles v c c' :
  Settled c -> nextPermission v c = Some c' -> Settled c'.
Proof.
  intros Hs H. eapply deliver_settles; [|exact H].
  intros _. apply Hs.
Qed.

Lemma nextAttachInterest_settles v c c' :
  Settled c -> nextAttachInterest v c = Some c' -> Settled c'.
Proof.
  intros Hs H. eapply deliver_settles; [|exact H].
  intros _. apply Hs.
Qed.

Lemma nextWebAudioEventInterest_settles v c c' :
  Settled c -> nextWebAudioEventInterest v c = Some c' -> Settled c'.
Proof.
  intros Hs H. eapply deliver_settles; [|exact H].
  intros _. apply Hs.
Qed.

Lemma reject_settles c c' : Settled c -> reject c = Some c' -> Settled c'.
Proof.
  unfold reject. intros Hs H. destruct (PermissionSubject.reject _).
  - eapply nextPermission_settles; eauto.
  - now injection H as <-.
Qed.

Lemma step_settles c e c' : Settled c -> step c e = Some c' -> Settled c'.
Proof.
  intros Hs H. destruct e; cbn [step] in H.
  - unfold grantTemporary in H. destruct (PermissionSubject.grantTemporary _).
    + eapply nextPermission_settles; eauto.
    + now injection H as <-.
  - eapply reject_settles; eauto.
  - eapply nextAttachInterest_settles; eauto.
  - eapply nextAttachInterest_settles; eauto.
  - eapply nextWebAudioEventInterest_settles; eauto.
  - eapply nextWebAudioEventInterest_settles; eauto.
  - unfold onDebuggerDetach in H. bind_inv H.
    eapply nextState_settles; [|exact H].
    destruct (String.eqb reason canceledByUser).
    + eapply reject_settles; eauto.
    + now injection Hc0 as <-.
  - unfold actionSettled in H. destruct (nth_error _ i) as [d|]; [|discriminate].
    set (c1 := withActions x _ c) in H.
    assert (Hs1 : Settled c1) by (destruct x; exact Hs).
    destruct (BinaryTransitionSubject.settle d _ o).
    + eapply nextState_settles; eauto.
    + now injection H as <-.
    + injection H as <-. exact Hs1.
  - unfold sendCommand in H. bind_inv H.
    apply nextAttachInterest_settles in Hc0; [|exact Hs].
    destruct (transition_eqb _ _); injection H as <-; exact Hc0.
  - unfold commandSettled in H. destruct (nth_error _ i); [|discriminate].
    eapply nextAttachInterest_settles; [|exact H]. exact Hs.
Qed.

Lemma run_settles es : forall c c', Settled c -> run c es = Some c' -> Settled c'.
Proof.
  induction es as [|e es IH]; intros c c' Hs H; cbn [run] in H.
  - now injection H as <-.
  - bind_inv H. eapply IH; [|exact H]. eapply step_settles; eauto.
Qed.

Lemma initial_settled : Settled initial.
Proof. split; [reflexivity|]. intros H. now destruct H. Qed.

(** ** Deliveries end

    From any state at all, four nested deliveries are enough; more fuel
    changes nothing. *)

Lemma deliver_total c : exists c', deliver depth c = Some c'.
Proof.
  destruct c as [[p a s w e] prev aa wa wt cm u].
  unfold depth. cbn [deliver]. unfold deliverBody at 1. cbn [subjects previous].
  destruct (sameState prev _); [eauto|].
  destruct p, s, e; destruct (0 <? a) eqn:Ha; destruct (0 <? w) eqn:Hw;
    repeat (cbv -[Z.eqb Z.ltb]; rewrite ?Z.eqb_refl, ?Ha, ?Hw); eauto.
Qed.

Section SubscriptionsMonotone.

Variables redeliver redeliver' : Controller -> option Controller.
Hypothesis redeliver_le :
  forall c c', redeliver c = Some c' -> redeliver' c = Some c'.

Lemma next_le x v c c' :
  next redeliver x v c = Some c' -> next redeliver' x v c = Some c'.
Proof.
  unfold next. intros H. bind_inv H.
  now rewrite (redeliver_le _ _ Hc0).
Qed.

Lemma transition_le x d c c' :
  transition redeliver x d c = Some c' -> transition redeliver' x d c = Some c'.
Proof.
  unfold transition. destruct (transition_eqb _ _); [|auto].
  intros H. bind_inv H. now rewrite (next_le _ _ _ _ Hc0).
Qed.

Lemma deliverBody_le c c' :
  deliverBody redeliver c = Some c' -> deliverBody redeliver' c = Some c'.
Proof.
  unfold deliverBody. destruct (sameState _ _); [auto|].
  intros H. bind_inv H.
  assert (Ha : governAttachment redeliver' (subjects c)
                 (withPrevious (subjects c) c) = Some c0).
  { revert Hc0. unfold governAttachment, activate, deactivate.
    destruct (_ && _); apply transition_le. }
  rewrite Ha. cbn [bind]. revert H.
  unfold governWebAudioEvents, activate, deactivate.
  destruct (_ && _); [apply transition_le|].
  destruct (transition_eqb _ _); [apply transition_le|apply next_le].
Qed.

End SubscriptionsMonotone.

Lemma deliver_more fuel : forall c c',
  deliver fuel c = Some c' -> deliver (S fuel) c = Some c'.
Proof.
  induction fuel as [|n IH]; intros c c' H; [discriminate|].
  cbn [deliver] in *. eapply deliverBody_le; [|exact H]. exact IH.
Qed.

Lemma deliver_any_fuel k c :
  deliver (k + depth) c = deliver depth c.
Proof.
  destruct (deliver_total c) as [c' Hc']. rewrite Hc'.
  induction k as [|k IH]; [exact Hc'|].
  cbn [Nat.add]. now apply deliver_more.
Qed.

(** ** What a delivery leaves alone

    The subscriptions write the two transition subjects and start actions;
    they never write the permission, the counters or the [sendCommand]
    pipelines. *)

Lemma Framed_refl c : Framed c c.
Proof. repeat split. Qed.

Lemma Framed_trans c1 c2 c3 : Framed c1 c2 -> Framed c2 c3 -> Framed c1 c3.
Proof.
  unfold Framed. intros (?&?&?&?&?&?) (?&?&?&?&?&?).
  repeat split; congruence.
Qed.

Lemma Framed_store x v c : Framed c (store x v c).
Proof. destruct x; repeat split. Qed.

Lemma Framed_started x d c : Framed c (started x d c).
Proof. destruct x; repeat split. Qed.

Section SubscriptionsFrame.

Variable redeliver : Controller -> option Controller.
Hypothesis redeliver_frame : forall c c', redeliver c = Some c' -> Framed c c'.

Lemma next_frame x v c c' :
  (x = AttachState -> v <> IS_ACTIVE) ->
  next redeliver x v c = Some c' -> Framed c c'.
Proof.
  unfold next. intros Hv H. bind_inv H.
  apply redeliver_frame in Hc0.
  assert (Hc : c' = c0).
  { destruct x; [|congruence].
    rewrite transition_eqb_neq in H by auto. congruence. }
  subst c'. eapply Framed_trans; [apply Framed_store|exact Hc0].
Qed.

Lemma transition_frame x d c c' :
  intermediateState d <> IS_ACTIVE ->
  transition redeliver x d c = Some c' -> Framed c c'.
Proof.
  unfold transition. intros Hd H.
  destruct (transition_eqb _ _).
  - bind_inv H. injection H as <-.
    apply next_frame in Hc0; [|auto].
    eapply Framed_trans; [exact Hc0|apply Framed_started].
  - injection H as <-. apply Framed_refl.
Qed.

Lemma governAttachment_frame state c c' :
  governAttachment redeliver state c = Some c' -> Framed c c'.
Proof.
  unfold governAttachment, activate, deactivate.
  destruct (_ && _); apply transition_frame; discriminate.
Qed.

Lemma governWebAudioEvents_frame state c c' :
  governWebAudioEvents redeliver state c = Some c' -> Framed c c'.
Proof.
  unfold governWebAudioEvents, activate, deactivate.
  destruct (_ && _); [apply transition_frame; discriminate|].
  destruct (transition_eqb _ _); [apply transition_frame; discriminate|].
  apply next_frame. discriminate.
Qed.

Lemma deliverBody_frame c c' :
  deliverBody redeliver c = Some c' -> Framed c c'.
Proof.
  unfold deliverBody. destruct (sameState _ _).
  - intros H. injection H as <-. apply Framed_refl.
  - intros H. bind_inv H.
    apply governAttachment_frame in Hc0.
    apply governWebAudioEvents_frame in H.
    eapply Framed_trans; [|exact H].
    eapply Framed_trans; [|exact Hc0]. repeat split.
Qed.

End SubscriptionsFrame.

Lemma deliver_frame fuel : forall c c', deliver fuel c = Some c' -> Framed c c'.
Proof.
  induction fuel as [|n IH]; intros c c' H; [discriminate|].
  cbn [deliver] in H. eapply deliverBody_frame; eauto.
Qed.

(** ** Which events can happen *)

Lemma nextState_total x v c : exists c', nextState x v c = Some c'.
Proof.
  unfold nextState, next.
  destruct (deliver_total (store x v c)) as [c1 ->]. cbn [bind]. eauto.
Qed.

Lemma reject_total c : exists c', reject c = Some c'.
Proof.
  unfold reject. destruct (PermissionSubject.reject _); [|eauto].
  apply deliver_total.
Qed.

Lemma step_total c e : enabled c e -> exists c', step c e = Some c'.
Proof.
  destruct e; cbn [enabled step]; intros He;
    try (apply deliver_total).
  - unfold grantTemporary. destruct (PermissionSubject.grantTemporary _); [|eauto].
    apply deliver_total.
  - apply reject_total.
  - unfold onDebuggerDetach.
    destruct (String.eqb reason canceledByUser).
    + destruct (reject_total c) as [c1 ->]. apply nextState_total.
    + apply nextState_total.
  - unfold actionSettled.
    destruct (nth_error (actionsOf x c) i) as [d|] eqn:Hd.
    + destruct (BinaryTransitionSubject.settle _ _ _); eauto using nextState_total.
    + apply nth_error_None in Hd. lia.
  - unfold sendCommand, nextAttachInterest.
    destruct (deliver_total
                (withSubjects (setAttachInterest
                   (CounterSubject.increment (attachInterest (subjects c)))
                   (subjects c)) c)) as [c1 ->].
    cbn [bind]. eauto.
  - unfold commandSettled.
    destruct (nth_error (commands c) i) eqn:Hd.
    + apply deliver_total.
    + apply nth_error_None in Hd. lia.
Qed.

Lemma step_enabled c e c' : step c e = Some c' -> enabled c e.
Proof.
  destruct e; cbn [enabled step]; auto.
  - unfold actionSettled. destruct (nth_error _ i) eqn:Hd; [|discriminate].
    intros _. apply nth_error_Some. congruence.
  - unfold commandSettled. destruct (nth_error _ i) eqn:Hd; [|discriminate].
    intros _. apply nth_error_Some. congruence.
Qed.

(** ** After a detachment from outside

    Once the attachment subject holds [IS_INACTIVE], a delivery can only
    leave it there or let the attachment subscription start a new
    activation. *)

Lemma Reattaching_ext s s' :
  attachState s' = attachState s -> permission s' = permission s ->
  attachInterest s' = attachInterest s -> Reattaching s -> Reattaching s'.
Proof. unfold Reattaching. intros -> -> ->. auto. Qed.

Section SubscriptionsReattach.

Variable redeliver : Controller -> option Controller.
Hypothesis redeliver_reattaching :
  forall c c', Reattaching (subjects c) -> redeliver c = Some c' ->
               Reattaching (subjects c').

Lemma next_webAudioEvents_reattaching v c c' :
  Reattaching (subjects c) ->
  next redeliver WebAudioEventState v c = Some c' -> Reattaching (subjects c').
Proof.
  unfold next. intros Hr H. bind_inv H. injection H as <-.
  eapply redeliver_reattaching; [|exact Hc0]. exact Hr.
Qed.

Lemma transition_webAudioEvents_reattaching d c c' :
  Reattaching (subjects c) ->
  transition redeliver WebAudioEventState d c = Some c' -> Reattaching (subjects c').
Proof.
  unfold transition. intros Hr H. destruct (transition_eqb _ _).
  - bind_inv H. injection H as <-.
    change (Reattaching (subjects c0)).
    eapply next_webAudioEvents_reattaching; [exact Hr|exact Hc0].
  - now injection H as <-.
Qed.

Lemma governAttachment_reattaching c c' :
  Reattaching (subjects c) ->
  governAttachment redeliver (subjects c) c = Some c' -> Reattaching (subjects c').
Proof.
  unfold governAttachment, activate, deactivate, transition. intros Hr H.
  destruct (permission_eqb_spec (permission (subjects c)) TEMPORARY) as [Hp|Hp];
    [destruct (Z.ltb_spec 0 (attachInterest (subjects c))) as [Hi|Hi]|];
    cbn [andb] in H.
  - cbn [beginningState intermediateState activateTransition valueOf] in H.
    destruct (transition_eqb _ _).
    + unfold next in H. bind_inv H. bind_inv Hc0. injection Hc0 as <-.
      injection H as <-.
      change (Reattaching (subjects c1)).
      eapply redeliver_reattaching; [|exact Hc1].
      right. cbn. auto.
    + now injection H as <-.
  - cbn [beginningState deactivateTransition valueOf] in H.
    destruct (transition_eqb_spec (attachState (subjects c)) IS_ACTIVE) as [Ha|_].
    + destruct Hr as [Hr|[Hr _]]; congruence.
    + now injection H as <-.
  - cbn [beginningState deactivateTransition valueOf] in H.
    destruct (transition_eqb_spec (attachState (subjects c)) IS_ACTIVE) as [Ha|_].
    + destruct Hr as [Hr|[Hr _]]; congruence.
    + now injection H as <-.
Qed.

Lemma governWebAudioEvents_reattaching state c c' :
  Reattaching (subjects c) ->
  governWebAudioEvents redeliver state c = Some c' -> Reattaching (subjects c').
Proof.
  unfold governWebAudioEvents, activate, deactivate. intros Hr.
  destruct (_ && _); [now apply transition_webAudioEvents_reattaching|].
  destruct (transition_eqb _ _); [now apply transition_webAudioEvents_reattaching|].
  now apply next_webAudioEvents_reattaching.
Qed.

Lemma deliverBody_reattaching c c' :
  Reattaching (subjects c) ->
  deliverBody redeliver c = Some c' -> Reattaching (subjects c').
Proof.
  unfold deliverBody. intros Hr H. destruct (sameState _ _).
  - now injection H as <-.
  - bind_inv H.
    eapply governWebAudioEvents_reattaching; [|exact H].
    eapply (governAttachment_reattaching (withPrevious (subjects c) c)); eauto.
Qed.

End SubscriptionsReattach.

Lemma deliver_reattaching fuel : forall c c',
  Reattaching (subjects c) -> deliver fuel c = Some c' -> Reattaching (subjects c').
Proof.
  induction fuel as [|n IH]; intros c c' Hr H; [discriminate|].
  cbn [deliver] in H. eapply deliverBody_reattaching; eauto.
Qed.

Lemma nextState_frame x v c c' :
  (x = AttachState -> v <> IS_ACTIVE) -> nextState x v c = Some c' -> Framed c c'.
Proof. apply next_frame. apply deliver_frame. Qed.

Lemma nextPermission_frame v c c' :
  nextPermission v c = Some c' ->
  permission (subjects c') = v
  /\ attachInterest (subjects c') = attachInterest (subjects c)
  /\ waiting c' = waiting c /\ commands c' = commands c.
Proof.
  unfold nextPermission. intros H. apply deliver_frame in H.
  destruct H as (?&?&?&?&?&?). auto.
Qed.

Lemma nextAttachInterest_frame v c c' :
  nextAttachInterest v c = Some c' ->
  attachInterest (subjects c') = v
  /\ permission (subjects c') = permission (subjects c)
  /\ waiting c' = waiting c /\ commands c' = commands c.
Proof.
  unfold nextAttachInterest. intros H. apply deliver_frame in H.
  destruct H as (?&?&?&?&?&?). auto.
Qed.

Lemma nextWebAudioEventInterest_frame v c c' :
  nextWebAudioEventInterest v c = Some c' ->
  attachInterest (subjects c') = attachInterest (subjects c)
  /\ permission (subjects c') = permission (subjects c)
  /\ waiting c' = waiting c /\ commands c' = commands c.
Proof.
  unfold nextWebAudioEventInterest. intros H. apply deliver_frame in H.
  destruct H as (?&?&?&?&?&?). auto.
Qed.

Lemma reject_permission c c' :
  reject c = Some c' -> permission (subjects c') = REJECTED.
Proof.
  unfold reject, PermissionSubject.reject.
  destruct (permission_eqb_spec (permission (subjects c)) REJECTED) as [Hp|_];
    cbn [negb]; intros H.
  - injection H as <-. exact Hp.
  - now apply nextPermission_frame in H.
Qed.

(** ** [sendCommand] pipelines *)

Lemma nextState_effect x v c c' :
  nextState x v c = Some c' ->
  exists c1, Framed c c1
    /\ c' = match x with
            | AttachState => if transition_eqb v IS_ACTIVE then startWaiting c1 else c1
            | WebAudioEventState => c1
            end.
Proof.
  unfold nextState, next. intros H. bind_inv H. injection H as <-.
  exists c0. split; [|reflexivity].
  eapply Framed_trans; [apply Framed_store|]. eapply deliver_frame; eauto.
Qed.

Lemma Framed_unsettled c c' :
  Framed c c' ->
  attachInterest (subjects c') = attachInterest (subjects c)
  /\ unsettled c' = unsettled c.
Proof. unfold unsettled. intros (?&?&?&Hw&Hc&?). now rewrite Hw, Hc. Qed.

Lemma unsettled_startWaiting c : unsettled (startWaiting c) = unsettled c.
Proof.
  unfold unsettled, startWaiting. cbn. rewrite length_app. f_equal. lia.
Qed.

Lemma nextState_unsettled x v c c' :
  nextState x v c = Some c' ->
  attachInterest (subjects c') = attachInterest (subjects c)
  /\ unsettled c' = unsettled c.
Proof.
  intros H. apply nextState_effect in H. destruct H as (c1 & Hf & ->).
  apply Framed_unsettled in Hf. destruct Hf as [Ha Hu].
  destruct x; [destruct (transition_eqb v IS_ACTIVE)|]; auto.
  rewrite unsettled_startWaiting. auto.
Qed.

Lemma deliver_unsettled c c' :
  deliver depth c = Some c' ->
  attachInterest (subjects c') = attachInterest (subjects c)
  /\ unsettled c' = unsettled c.
Proof. intros H. apply Framed_unsettled. eapply deliver_frame; eauto. Qed.

Lemma length_removeAt {A : Type} (l : list A) i a :
  nth_error l i = Some a -> S (List.length (removeAt i l)) = List.length l.
Proof.
  revert i. induction l as [|b l IH]; intros [|i] H; try discriminate.
  - reflexivity.
  - cbn in H. apply IH in H. unfold removeAt in *. cbn in *. now rewrite H.
Qed.

Lemma sendCommand_effect m c c' :
  sendCommand m c = Some c' ->
  attachInterest (subjects c') = attachInterest (subjects c) + 1
  /\ unsettled c' = unsettled c + 1.
Proof.
  unfold sendCommand, nextAttachInterest, CounterSubject.increment.
  intros H. bind_inv H. apply deliver_unsettled in Hc0. destruct Hc0 as [Ha Hu].
  cbn in Ha.
  assert (Hu' : unsettled c0 = unsettled c) by exact Hu.
  destruct (transition_eqb _ _); injection H as <-; cbn [subjects withCommands withWaiting];
    (split; [exact Ha|]); rewrite <- Hu'; unfold unsettled; cbn;
    rewrite length_app; cbn; lia.
Qed.

Lemma commandSettled_effect i o c c' :
  commandSettled i o c = Some c' ->
  attachInterest (subjects c') = attachInterest (subjects c) - 1
  /\ unsettled c' = unsettled c - 1.
Proof.
  unfold commandSettled, nextAttachInterest, CounterSubject.decrement.
  destruct (nth_error (commands c) i) as [m|] eqn:Hm; [|discriminate].
  intros H. apply deliver_unsettled in H. destruct H as [Ha Hu].
  split; [exact Ha|]. rewrite Hu. unfold unsettled. cbn.
  apply length_removeAt in Hm. lia.
Qed.

Lemma step_balance c e c' :
  step c e = Some c' ->
  attachInterest (subjects c') - unsettled c'
  = attachInterest (subjects c) - unsettled c + consumerInterest e.
Proof.
  destruct e; cbn [step consumerInterest]; intros H.
  - unfold grantTemporary in H. destruct (PermissionSubject.grantTemporary _).
    + apply deliver_unsettled in H. destruct H as [-> ->]. unfold unsettled; cbn; lia.
    + injection H as <-. lia.
  - unfold reject in H. destruct (PermissionSubject.reject _).
    + apply deliver_unsettled in H. destruct H as [-> ->]. unfold unsettled; cbn; lia.
    + injection H as <-. lia.
  - apply deliver_unsettled in H. destruct H as [-> ->].
    unfold CounterSubject.increment. unfold unsettled; cbn; lia.
  - apply deliver_unsettled in H. destruct H as [-> ->].
    unfold CounterSubject.decrement. unfold unsettled; cbn; lia.
  - apply deliver_unsettled in H. destruct H as [-> ->]. unfold unsettled; cbn; lia.
  - apply deliver_unsettled in H. destruct H as [-> ->]. unfold unsettled; cbn; lia.
  - unfold onDebuggerDetach in H. bind_inv H.
    apply nextState_unsettled in H. destruct H as [-> ->].
    destruct (String.eqb reason canceledByUser).
    + unfold reject in Hc0. destruct (PermissionSubject.reject _).
      * apply deliver_unsettled in Hc0. destruct Hc0 as [-> ->]. unfold unsettled; cbn; lia.
      * injection Hc0 as <-. lia.
    + injection Hc0 as <-. lia.
  - unfold actionSettled in H. destruct (nth_error _ i) as [d|]; [|discriminate].
    set (c1 := withActions x _ c) in H.
    assert (H1 : attachInterest (subjects c1) = attachInterest (subjects c)
                 /\ unsettled c1 = unsettled c) by (destruct x; split; reflexivity).
    destruct H1 as [Ha Hu].
    destruct (BinaryTransitionSubject.settle d _ o).
    + apply nextState_unsettled in H. destruct H as [-> ->]. lia.
    + injection H as <-. lia.
    + injection H as <-. change (unsettled (withUnhandled (S (unhandled c1)) c1))
        with (unsettled c1).
      cbn [subjects withUnhandled]. lia.
  - apply sendCommand_effect in H. lia.
  - apply commandSettled_effect in H. lia.
Qed.

Lemma run_balance es : forall c c',
  run c es = Some c' ->
  attachInterest (subjects c') - unsettled c'
  = attachInterest (subjects c) - unsettled c + consumersInterest es.
Proof.
  induction es as [|e es IH]; intros c c' H; cbn [run consumersInterest fold_right] in *.
  - injection H as <-. lia.
  - bind_inv H. apply IH in H. apply step_balance in Hc0.
    unfold consumersInterest in H. lia.
Qed.

(** * The specification, sentence by sentence *)

(** ** C4: the permission subject *)

Lemma calls_rejected cs : PermissionSubject.calls cs REJECTED = REJECTED.
Proof.
  unfold PermissionSubject.calls.
  induction cs as [|[] cs IH]; cbn; auto.
Qed.

(** C4.  Under any sequence of [grantTemporary] and [reject] calls the
    permission, once [REJECTED], stays [REJECTED]: whatever calls [cs']
    follow calls [cs] that ended in [REJECTED], the value is [REJECTED].
    [grantTemporary] passes [TEMPORARY] to [next] exactly when the value is
    [UNKNOWN] and otherwise calls nothing; [reject] passes [REJECTED] to
    [next] exactly when the value is not [REJECTED] yet. *)
Theorem rejected_is_final :
  (forall v cs cs',
      PermissionSubject.calls cs v = REJECTED ->
      PermissionSubject.calls (cs ++ cs') v = REJECTED)
  /\ (forall v, PermissionSubject.grantTemporary v = Some TEMPORARY <-> v = UNKNOWN)
  /\ (forall v, PermissionSubject.grantTemporary v = None <-> v <> UNKNOWN)
  /\ (forall v, PermissionSubject.reject v = Some REJECTED <-> v <> REJECTED)
  /\ (forall v, PermissionSubject.reject v = None <-> v = REJECTED).
Proof.
  split; [|repeat split; destruct v; cbn; intros; congruence].
  intros v cs cs' H. unfold PermissionSubject.calls in *.
  rewrite fold_left_app, H. apply calls_rejected.
Qed.

(** ** C5: the attachment subscription *)

(** C5.  On a combined state that [distinctUntilChanged] lets through, the
    first subscription runs, and it calls [activate] on the attachment
    subject exactly when the permission is [TEMPORARY] and the attachment
    interest is positive, and [deactivate] in every other case. *)
Theorem governAttachment_policy redeliver state c :
  (permission state = TEMPORARY /\ 0 < attachInterest state ->
     governAttachment redeliver state c = activate redeliver AttachState c)
  /\ (~ (permission state = TEMPORARY /\ 0 < attachInterest state) ->
     governAttachment redeliver state c = deactivate redeliver AttachState c)
  /\ (sameState (previous c) (subjects c) = false ->
     deliverBody redeliver c =
       (c1 <- governAttachment redeliver (subjects c) (withPrevious (subjects c) c) ;;
        governWebAudioEvents redeliver (subjects c) c1)).
Proof.
  unfold governAttachment, deliverBody.
  destruct (permission_eqb_spec (permission state) TEMPORARY) as [Hp|Hp];
    destruct (Z.ltb_spec 0 (attachInterest state)) as [Hi|Hi]; cbn [andb];
    (split; [|split]);
    try (intros [? ?]; first [reflexivity | congruence | lia]);
    try (intros Hn; first [reflexivity | exfalso; apply Hn; split; assumption]);
    intros ->; reflexivity.
Qed.

(** ** C6, C2, C9: failures of an action *)

(** C6.  When the action fails with a message that starts with
    "Another debugger is already attached" and the subject still holds the
    transition's intermediate state, the success state is sent to [next],
    just as a completion would; for the activation that is [IS_ACTIVE].
    In the controller the two callbacks have the same effect. *)
Theorem alreadyAttached_failure_is_success d value err m :
  message err = Some m ->
  String.prefix alreadyAttached m = true ->
  value = intermediateState d ->
  BinaryTransitionSubject.settle d value (Failed err) = Next (successState d)
  /\ BinaryTransitionSubject.settle d value (Failed err)
     = BinaryTransitionSubject.settle d value Completed
  /\ BinaryTransitionSubject.after value
       (BinaryTransitionSubject.settle d value (Failed err)) = successState d
  /\ (forall x i c, actionSettled x i (Failed err) c = actionSettled x i Completed c).
Proof.
  intros Hm Hp ->.
  assert (He : forall d' v, BinaryTransitionSubject.settle d' v (Failed err)
                            = BinaryTransitionSubject.settle d' v Completed).
  { intros d' v. cbn. unfold BinaryTransitionSubject.onError. now rewrite Hm, Hp. }
  assert (Hs : BinaryTransitionSubject.settle d (intermediateState d) Completed
               = Next (successState d)).
  { cbn. unfold BinaryTransitionSubject.onComplete. now rewrite transition_eqb_refl. }
  rewrite He, Hs. repeat split.
  intros x i c. unfold actionSettled.
  destruct (nth_error _ i); [|reflexivity]. now rewrite He.
Qed.

Lemma alreadyAttached_failure_is_success_witness :
  message anotherDebugger
    = Some "Another debugger is already attached to the tab with id: 7."%string
  /\ BinaryTransitionSubject.settle activateTransition ACTIVATING (Failed anotherDebugger)
     = Next IS_ACTIVE.
Proof.
  split; [reflexivity|].
  apply (alreadyAttached_failure_is_success activateTransition ACTIVATING anotherDebugger
           "Another debugger is already attached to the tab with id: 7.");
    reflexivity.
Defined.

(** C2 fails as stated.  The attachment is deactivating when the debugger is
    detached from outside; the subject is forced to [IS_INACTIVE]; then the
    [detach] call fails with a message of the other kind.  The subject holds
    [IS_INACTIVE], not the intermediate [DEACTIVATING], and yet it is not left
    alone: the selector sends [beginningState], [IS_ACTIVE], and the
    attachment subscription starts another deactivation. *)
Lemma stale_failure_not_left_untouched :
  String.prefix alreadyAttached "Debugger is not attached to the tab with id: 7." = false
  /\ BinaryTransitionSubject.settle deactivateTransition IS_INACTIVE (Failed notAttached)
     = Next IS_ACTIVE
  /\ exists c c',
      run initial detachedWhileDeactivating = Some c
      /\ attachState (subjects c) = IS_INACTIVE
      /\ attachActions c = [deactivateTransition]
      /\ actionSettled AttachState 0 (Failed notAttached) c = Some c'
      /\ attachState (subjects c') = DEACTIVATING
      /\ attachActions c' = [deactivateTransition].
Proof.
  split; [reflexivity|]. split; [reflexivity|].
  eexists. eexists.
  split; [vm_compute; reflexivity|].
  split; [reflexivity|]. split; [reflexivity|].
  split; [vm_compute; reflexivity|].
  split; reflexivity.
Qed.

(** C2, amended.  When the action fails with a message that does not start
    with "Another debugger is already attached": if the subject still holds
    the intermediate state, [errorState] ([IS_INACTIVE] in both descriptions)
    is sent to [next]; otherwise [beginningState] is sent to [next]
    ([IS_INACTIVE] for the activation, [IS_ACTIVE] for the deactivation). *)
Theorem failure_settles_to_error_or_beginning d value err m :
  message err = Some m ->
  String.prefix alreadyAttached m = false ->
  (value = intermediateState d ->
     BinaryTransitionSubject.settle d value (Failed err) = Next (errorState d))
  /\ (value <> intermediateState d ->
     BinaryTransitionSubject.settle d value (Failed err) = Next (beginningState d))
  /\ errorState activateTransition = IS_INACTIVE
  /\ errorState deactivateTransition = IS_INACTIVE
  /\ beginningState activateTransition = IS_INACTIVE
  /\ beginningState deactivateTransition = IS_ACTIVE.
Proof.
  intros Hm Hp. cbn. unfold BinaryTransitionSubject.onError. rewrite Hm, Hp.
  repeat split.
  - intros ->. now rewrite transition_eqb_refl.
  - intros Hv. now rewrite transition_eqb_neq.
Qed.

Lemma failure_settles_to_error_or_beginning_witness :
  message notAttached = Some "Debugger is not attached to the tab with id: 7."%string
  /\ BinaryTransitionSubject.settle deactivateTransition DEACTIVATING (Failed notAttached)
     = Next IS_INACTIVE.
Proof.
  split; [reflexivity|].
  apply (failure_settles_to_error_or_beginning deactivateTransition DEACTIVATING
           notAttached "Debugger is not attached to the tab with id: 7.");
    reflexivity.
Defined.

(** C9, the code at the failing input.  An error without [message] makes
    the selector raise: nothing is sent to [next], whatever the description
    and the value.  After a granted, wanted attachment whose [attach] call
    fails so, the subject holds [ACTIVATING] with no action in flight and one
    unhandled error; [activate] and [deactivate] then find neither of their
    beginning states. *)
Theorem failure_without_message_throws :
  (forall d value,
      BinaryTransitionSubject.settle d value (Failed errorWithoutMessage) = Thrown)
  /\ run initial [GrantTemporary; IncrementAttachInterest;
                  ActionSettled AttachState 0 (Failed errorWithoutMessage)]
     = Some stuckActivating
  /\ (forall redeliver,
        activate redeliver AttachState stuckActivating = Some stuckActivating
        /\ deactivate redeliver AttachState stuckActivating = Some stuckActivating).
Proof.
  split; [reflexivity|]. split; [vm_compute; reflexivity|].
  intros redeliver. split; reflexivity.
Qed.

(** ** C1: web audio events only while attached *)

(** C1.  In every state the controller can be in between two events,
    after any sequence of grants and rejections, interest increments and
    decrements, detach notifications, [sendCommand] calls and callbacks of
    actions (completed or failed): if the web audio event subject holds
    [IS_ACTIVE], the attachment subject holds [IS_ACTIVE]. *)
Theorem webAudioEvents_active_implies_attached c :
  reachable c ->
  webAudioEventState (subjects c) = IS_ACTIVE ->
  attachState (subjects c) = IS_ACTIVE.
Proof.
  intros [es Hes] Hw.
  destruct (run_settles es initial c initial_settled Hes) as [_ Hc].
  apply Hc. congruence.
Qed.

Lemma webAudioEvents_active_implies_attached_witness :
  reachable bothActive
  /\ webAudioEventState (subjects bothActive) = IS_ACTIVE
  /\ attachState (subjects bothActive) = IS_ACTIVE.
Proof.
  assert (Hr : reachable bothActive)
    by (exists attachedAndListening; vm_compute; reflexivity).
  split; [exact Hr|]. split; [reflexivity|].
  apply (webAudioEvents_active_implies_attached bothActive Hr). reflexivity.
Defined.

(** ** C3: a completion that comes late *)

Lemma valueOf_withActions x l c : valueOf x (withActions x l c) = valueOf x c.
Proof. now destruct x. Qed.

Lemma subjects_withActions x l c : subjects (withActions x l c) = subjects c.
Proof. now destruct x. Qed.

(** C3 fails as stated.  The attachment is activating when the debugger is
    detached from outside for a reason other than the user's: the subject is
    forced to [IS_INACTIVE], and, the permission and the interest being what
    they were, the attachment subscription activates again at once.  When the
    first [attach] call then completes, the subject holds [ACTIVATING], of the
    second activation, and is set to [IS_ACTIVE]. *)
Lemma stale_success_after_forced_inactive :
  exists c c1 c2,
    run initial [GrantTemporary; IncrementAttachInterest] = Some c
    /\ attachState (subjects c) = ACTIVATING
    /\ attachActions c = [activateTransition]
    /\ onDebuggerDetach "target_closed" c = Some c1
    /\ onDebuggerDetach "target_closed" c = nextState AttachState IS_INACTIVE c
    /\ attachActions c1 = [activateTransition; activateTransition]
    /\ actionSettled AttachState 0 Completed c1 = Some c2
    /\ attachState (subjects c2) = IS_ACTIVE
    /\ attachActions c2 = [activateTransition].
Proof.
  do 3 eexists.
  split; [vm_compute; reflexivity|].
  split; [reflexivity|]. split; [reflexivity|].
  split; [vm_compute; reflexivity|].
  split; [reflexivity|]. split; [reflexivity|].
  split; [vm_compute; reflexivity|].
  split; reflexivity.
Qed.

(** C3, amended.  When an action completes and the subject does not hold
    the transition's intermediate state (it was forced to [IS_INACTIVE] and no
    transition of the same direction has started since), nothing is sent to
    [next] and the five subjects keep their values.  When the subject does
    hold the intermediate state, of whichever transition, the success state is
    sent to [next]. *)
Theorem completion_discarded_unless_intermediate x i d c :
  nth_error (actionsOf x c) i = Some d ->
  (valueOf x c <> intermediateState d ->
     exists c', actionSettled x i Completed c = Some c'
                /\ subjects c' = subjects c)
  /\ (valueOf x c = intermediateState d ->
     actionSettled x i Completed c
     = nextState x (successState d) (withActions x (removeAt i (actionsOf x c)) c)).
Proof.
  intros Hd. unfold actionSettled. rewrite Hd, valueOf_withActions. cbn.
  unfold BinaryTransitionSubject.onComplete. split; intros Hv.
  - rewrite transition_eqb_neq by exact Hv.
    eexists. split; [reflexivity|apply subjects_withActions].
  - now rewrite Hv, transition_eqb_refl.
Qed.

Lemma completion_discarded_unless_intermediate_witness :
  run initial [GrantTemporary; IncrementAttachInterest;
               DebuggerDetached canceledByUser] = Some detachedWhileActivating
  /\ exists c', actionSettled AttachState 0 Completed detachedWhileActivating = Some c'
                /\ subjects c' = subjects detachedWhileActivating.
Proof.
  split; [vm_compute; reflexivity|].
  apply (completion_discarded_unless_intermediate
           AttachState 0%nat activateTransition detachedWhileActivating).
  - reflexivity.
  - discriminate.
Defined.

(** ** C7: which pending requests send their command *)

(** C7 fails as stated.  Two [sendCommand] calls wait for the attachment;
    when the attachment becomes active both commands are sent, the earlier one
    too. *)
Lemma earlier_command_not_dropped :
  exists c c',
    run initial [SendCommand "A"; SendCommand "B"; GrantTemporary] = Some c
    /\ waiting c = ["A"; "B"]%string
    /\ commands c = []
    /\ attachState (subjects c) = ACTIVATING
    /\ actionSettled AttachState 0 Completed c = Some c'
    /\ attachState (subjects c') = IS_ACTIVE
    /\ commands c' = ["A"; "B"]%string
    /\ waiting c' = [].
Proof.
  do 2 eexists.
  split; [vm_compute; reflexivity|].
  split; [reflexivity|]. split; [reflexivity|]. split; [reflexivity|].
  split; [vm_compute; reflexivity|].
  repeat split.
Qed.

(** C7, amended.  When [IS_ACTIVE] is sent to the attachment subject, every
    waiting [sendCommand] request sends its command, in the order the requests
    were made, after the commands already in flight; none is dropped and none
    stays waiting. *)
Theorem waiting_commands_all_start c c' :
  nextState AttachState IS_ACTIVE c = Some c' ->
  commands c' = commands c ++ waiting c /\ waiting c' = [].
Proof.
  intros H. apply nextState_effect in H. destruct H as (c1 & Hf & ->).
  destruct Hf as (_&_&_&Hw&Hc&_). cbn. now rewrite Hw, Hc.
Qed.

Lemma waiting_commands_all_start_witness :
  nextState AttachState IS_ACTIVE twoWaiting = Some twoSent
  /\ commands twoSent = commands twoWaiting ++ waiting twoWaiting
  /\ waiting twoSent = [].
Proof.
  assert (H : nextState AttachState IS_ACTIVE twoWaiting = Some twoSent)
    by (vm_compute; reflexivity).
  split; [exact H|].
  exact (waiting_commands_all_start twoWaiting twoSent H).
Defined.

(** ** The interest a [sendCommand] holds *)

(** With the observable subscribed once, at the call: [sendCommand] adds one
    to the attachment interest, and the callback of its command, completed or
    failed, takes one away.  So after any sequence of events the attachment
    interest is what the other consumers added with [increment] and
    [decrement], plus one for each request that has not settled. *)
Theorem sendCommand_interest_balanced es c :
  run initial es = Some c ->
  attachInterest (subjects c) = consumersInterest es + unsettled c
  /\ (forall m c', sendCommand m c = Some c' ->
        attachInterest (subjects c') = attachInterest (subjects c) + 1
        /\ unsettled c' = unsettled c + 1)
  /\ (forall i o c', commandSettled i o c = Some c' ->
        attachInterest (subjects c') = attachInterest (subjects c) - 1
        /\ unsettled c' = unsettled c - 1).
Proof.
  intros H. split; [|split].
  - apply run_balance in H. change (unsettled initial) with 0 in H.
    cbn [attachInterest subjects initial initialState] in H. lia.
  - intros m c'. apply sendCommand_effect.
  - intros i o c'. apply commandSettled_effect.
Qed.

Lemma sendCommand_interest_balanced_witness :
  run initial commandThatFails = Some afterCommandThatFails
  /\ attachInterest (subjects afterCommandThatFails)
     = consumersInterest commandThatFails + unsettled afterCommandThatFails.
Proof.
  assert (H : run initial commandThatFails = Some afterCommandThatFails)
    by (vm_compute; reflexivity).
  split; [exact H|].
  exact (proj1 (sendCommand_interest_balanced commandThatFails afterCommandThatFails H)).
Defined.

(** ** C10: a detachment from outside *)

Lemma nextState_inactive_reattaching c c' :
  nextState AttachState IS_INACTIVE c = Some c' ->
  permission (subjects c') = permission (subjects c)
  /\ Reattaching (subjects c').
Proof.
  intros H. split.
  - apply nextState_frame in H; [apply H|discriminate].
  - unfold nextState, next in H. bind_inv H. cbn in H. injection H as <-.
    eapply deliver_reattaching; [|exact Hc0]. left. reflexivity.
Qed.

(** C10.  A detach notification whose reason is not "canceled_by_user" does
    one thing: it sends [IS_INACTIVE] to the attachment subject.  The
    permission is what it was, and when the subscriptions have reacted the
    attachment subject holds [IS_INACTIVE], or [ACTIVATING] if the permission
    is [TEMPORARY] and the interest positive, so that the attachment
    subscription started a new activation.  With the reason
    "canceled_by_user" the permission is [REJECTED] afterwards and the
    attachment subject holds [IS_INACTIVE]. *)
Theorem detach_keeps_permission reason c c' :
  reason <> canceledByUser ->
  onDebuggerDetach reason c = Some c' ->
  onDebuggerDetach reason c = nextState AttachState IS_INACTIVE c
  /\ permission (subjects c') = permission (subjects c)
  /\ Reattaching (subjects c')
  /\ (forall c'', onDebuggerDetach canceledByUser c = Some c'' ->
        permission (subjects c'') = REJECTED
        /\ attachState (subjects c'') = IS_INACTIVE).
Proof.
  intros Hr H. apply String.eqb_neq in Hr.
  assert (He : onDebuggerDetach reason c = nextState AttachState IS_INACTIVE c).
  { unfold onDebuggerDetach. now rewrite Hr. }
  split; [exact He|]. rewrite He in H.
  apply nextState_inactive_reattaching in H. destruct H as [Hp Ha].
  split; [exact Hp|]. split; [exact Ha|].
  intros c'' H. unfold onDebuggerDetach in H. cbn [String.eqb] in H.
  change (String.eqb canceledByUser canceledByUser) with true in H.
  bind_inv H. apply reject_permission in Hc0.
  apply nextState_inactive_reattaching in H. destruct H as [Hp' Ha'].
  rewrite Hc0 in Hp'. split; [exact Hp'|].
  destruct Ha' as [Ha'|(_ & Hp'' & _)]; [exact Ha'|congruence].
Qed.

Lemma detach_keeps_permission_witness :
  "target_closed"%string <> canceledByUser
  /\ run initial (attachedAndListening ++ [DecrementAttachInterest])
     = Some detachingWhileListening
  /\ onDebuggerDetach "target_closed" detachingWhileListening = Some detachedByTarget
  /\ permission (subjects detachedByTarget) = permission (subjects detachingWhileListening).
Proof.
  assert (Hr : "target_closed"%string <> canceledByUser) by discriminate.
  assert (H : onDebuggerDetach "target_closed" detachingWhileListening
              = Some detachedByTarget) by (vm_compute; reflexivity).
  split; [exact Hr|]. split; [vm_compute; reflexivity|]. split; [exact H|].
  exact (proj1 (proj2 (detach_keeps_permission "target_closed"
                         detachingWhileListening detachedByTarget Hr H))).
Defined.

(** * More of the controller *)

(** ** What a delivery does to the attachment *)

Lemma Effect_refl c : Effect c c.
Proof. split; [apply Framed_refl|]. left. auto. Qed.

Lemma Effect_trans c1 c2 c3 : Effect c1 c2 -> Effect c2 c3 -> Effect c1 c3.
Proof.
  intros [F12 A12] [F23 A23]. split; [eapply Framed_trans; eauto|].
  assert (Hw : attachmentWanted (subjects c2) <-> attachmentWanted (subjects c1)).
  { destruct F12 as (Hp & Hi & _). unfold attachmentWanted. now rewrite Hp, Hi. }
  unfold AttachEffect in *.
  destruct A12 as [[Hs Ha]|[(Hs & Hq & Hs' & Ha)|(Hs & Hq & Hs' & Ha)]];
    destruct A23 as [[Ht Hb]|[(Ht & Hr & Ht' & Hb)|(Ht & Hr & Ht' & Hb)]];
    try congruence.
  - left. split; congruence.
  - right. left. rewrite <- Hs, <- Ha. tauto.
  - right. right. rewrite <- Hs, <- Ha. tauto.
  - right. left. split; [exact Hs|]. split; [exact Hq|]. split; congruence.
  - right. right. split; [exact Hs|]. split; [exact Hq|]. split; congruence.
Qed.

Lemma Effect_ext c c' :
  Framed c c' ->
  attachState (subjects c') = attachState (subjects c) ->
  attachActions c' = attachActions c -> Effect c c'.
Proof. intros F Hs Ha. split; [exact F|]. left. auto. Qed.

Section SubscriptionsEffect.

Variable redeliver : Controller -> option Controller.
Hypothesis redeliver_effect : forall c c', redeliver c = Some c' -> Effect c c'.

Lemma next_webAudioEvents_effect v c c' :
  next redeliver WebAudioEventState v c = Some c' -> Effect c c'.
Proof.
  unfold next. intros H. bind_inv H. injection H as <-.
  eapply Effect_trans; [|eapply redeliver_effect; exact Hc0].
  apply Effect_ext; [apply (Framed_store WebAudioEventState)| |]; reflexivity.
Qed.

Lemma transition_webAudioEvents_effect d c c' :
  transition redeliver WebAudioEventState d c = Some c' -> Effect c c'.
Proof.
  unfold transition. intros H. destruct (transition_eqb _ _).
  - bind_inv H. injection H as <-. apply next_webAudioEvents_effect in Hc0.
    eapply Effect_trans; [exact Hc0|].
    apply Effect_ext; [apply (Framed_started WebAudioEventState)| |]; reflexivity.
  - injection H as <-. apply Effect_refl.
Qed.

Lemma transition_attachment_effect d c c' :
  intermediateState d <> IS_INACTIVE -> intermediateState d <> IS_ACTIVE ->
  transition redeliver AttachState d c = Some c' ->
  c' = c
  \/ (attachState (subjects c) = beginningState d
      /\ attachState (subjects c') = intermediateState d
      /\ attachActions c' = attachActions c ++ [d]
      /\ Framed c c').
Proof.
  unfold transition. intros Hi Ha H. cbn [valueOf] in H.
  destruct (transition_eqb_spec (attachState (subjects c)) (beginningState d)) as [Hb|_].
  - right. unfold next in H. bind_inv H. bind_inv Hc0. injection Hc0 as <-.
    rewrite (transition_eqb_neq _ _ Ha) in H. injection H as <-.
    apply redeliver_effect in Hc1. destruct Hc1 as [F [[Hs Hl]|[(Hs&_)|(Hs&_)]]];
      cbn in Hs; try congruence.
    split; [exact Hb|]. split; [exact Hs|]. split.
    + cbn. now rewrite Hl.
    + eapply Framed_trans; [apply (Framed_store AttachState)|].
      eapply Framed_trans; [exact F|]. apply (Framed_started AttachState).
  - left. congruence.
Qed.

Lemma governAttachment_effect c c' :
  governAttachment redeliver (subjects c) c = Some c' -> Effect c c'.
Proof.
  unfold governAttachment, activate, deactivate. intros H.
  destruct (permission_eqb_spec (permission (subjects c)) TEMPORARY) as [Hp|Hp];
    [destruct (Z.ltb_spec 0 (attachInterest (subjects c))) as [Hi|Hi]|];
    cbn [andb] in H;
    (apply transition_attachment_effect in H; [|discriminate|discriminate]);
    (destruct H as [->|(Hb & Hs & Ha & F)]; [apply Effect_refl|]);
    (split; [exact F|]); cbn in Hb, Hs, Ha.
  - right. left. split; [exact Hb|]. split; [split; assumption|]. split; assumption.
  - right. right. split; [exact Hb|]. split; [intros [_ Hw]; lia|]. split; assumption.
  - right. right. split; [exact Hb|]. split; [intros [Hw _]; congruence|].
    split; assumption.
Qed.

Lemma governWebAudioEvents_effect state c c' :
  governWebAudioEvents redeliver state c = Some c' -> Effect c c'.
Proof.
  unfold governWebAudioEvents, activate, deactivate.
  destruct (_ && _); [apply transition_webAudioEvents_effect|].
  destruct (transition_eqb _ _); [apply transition_webAudioEvents_effect|].
  apply next_webAudioEvents_effect.
Qed.

Lemma deliverBody_effect c c' :
  deliverBody redeliver c = Some c' -> Effect c c'.
Proof.
  unfold deliverBody. destruct (sameState _ _).
  - intros H. injection H as <-. apply Effect_refl.
  - intros H. bind_inv H.
    apply (governAttachment_effect (withPrevious (subjects c) c)) in Hc0.
    apply governWebAudioEvents_effect in H.
    eapply Effect_trans; [|exact H].
    eapply Effect_trans; [|exact Hc0].
    apply Effect_ext; [repeat split| |]; reflexivity.
Qed.

End SubscriptionsEffect.

Lemma deliver_effect fuel : forall c c', deliver fuel c = Some c' -> Effect c c'.
Proof.
  induction fuel as [|n IH]; intros c c' H; [discriminate|].
  cbn [deliver] in H. eapply deliverBody_effect; eauto.
Qed.

(** ** When [chrome.debugger.attach] is called *)

Lemma Framed_wanted c c' :
  Framed c c' ->
  (attachmentWanted (subjects c') <-> attachmentWanted (subjects c)).
Proof. intros (Hp & Hi & _). unfold attachmentWanted. now rewrite Hp, Hi. Qed.

Lemma activations_app l l' :
  activations (l ++ l') = (activations l + activations l')%nat.
Proof. unfold activations. now rewrite filter_app, length_app. Qed.

Lemma activations_removeAt i l : (activations (removeAt i l) <= activations l)%nat.
Proof.
  unfold removeAt. rewrite <- (firstn_skipn i l) at 3.
  rewrite !activations_app. apply Nat.add_le_mono_l.
  destruct (skipn i l) as [|d l'] eqn:Hs.
  - assert (Hn : skipn (S i) l = []).
    { apply skipn_all2. apply (f_equal (@List.length _)) in Hs.
      rewrite length_skipn in Hs. cbn in Hs. lia. }
    now rewrite Hn.
  - assert (Hn : skipn (S i) l = l').
    { change (S i) with (1 + i)%nat. rewrite <- skipn_skipn, Hs. reflexivity. }
    rewrite Hn. unfold activations. cbn. destruct (transition_eqb _ _); cbn; lia.
Qed.

Lemma deliver_activations c c' :
  deliver depth c = Some c' ->
  ~ attachmentWanted (subjects c') ->
  (activations (attachActions c') <= activations (attachActions c))%nat.
Proof.
  intros H Hw. apply deliver_effect in H. destruct H as [F A].
  apply Framed_wanted in F.
  destruct A as [[_ ->]|[(_ & Hq & _)|(_ & _ & _ & ->)]].
  - lia.
  - tauto.
  - rewrite activations_app. cbn. lia.
Qed.

Lemma nextState_activations x v c c' :
  nextState x v c = Some c' ->
  ~ attachmentWanted (subjects c') ->
  (activations (attachActions c') <= activations (attachActions c))%nat.
Proof.
  unfold nextState, next. intros H Hw. bind_inv H.
  assert (Hc : attachActions c' = attachActions c0 /\ subjects c' = subjects c0).
  { destruct x; [destruct (transition_eqb v IS_ACTIVE)|];
      injection H as <-; split; reflexivity. }
  destruct Hc as [Ha Hs]. rewrite Ha. rewrite Hs in Hw.
  apply deliver_activations in Hc0; [|exact Hw].
  destruct x; exact Hc0.
Qed.

Lemma reject_activations c c' :
  reject c = Some c' ->
  (activations (attachActions c') <= activations (attachActions c))%nat.
Proof.
  intros H. pose proof (reject_permission _ _ H) as Hp.
  unfold reject in H. destruct (PermissionSubject.reject _).
  - apply deliver_activations in H; [exact H|].
    intros [Hw _]. congruence.
  - injection H as <-. lia.
Qed.

Lemma step_activations c e c' :
  step c e = Some c' ->
  ~ attachmentWanted (subjects c') ->
  (activations (attachActions c') <= activations (attachActions c))%nat.
Proof.
  destruct e; cbn [step]; intros H Hw;
    try (apply deliver_activations in H; [exact H|exact Hw]).
  - unfold grantTemporary in H. destruct (PermissionSubject.grantTemporary _).
    + apply deliver_activations in H; [exact H|exact Hw].
    + injection H as <-. lia.
  - now apply reject_activations.
  - unfold onDebuggerDetach in H. bind_inv H.
    apply nextState_activations in H; [|exact Hw].
    destruct (String.eqb reason canceledByUser).
    + apply reject_activations in Hc0. lia.
    + injection Hc0 as <-. exact H.
  - unfold actionSettled in H. destruct (nth_error _ i) as [d|]; [|discriminate].
    set (c1 := withActions x _ c) in H.
    assert (H1 : (activations (attachActions c1) <= activations (attachActions c))%nat).
    { subst c1. destruct x; [apply activations_removeAt|apply Nat.le_refl]. }
    destruct (BinaryTransitionSubject.settle d _ o).
    + apply nextState_activations in H; [lia|exact Hw].
    + injection H as <-. exact H1.
    + injection H as <-. exact H1.
  - unfold sendCommand in H. bind_inv H.
    assert (Hc : attachActions c' = attachActions c0 /\ subjects c' = subjects c0).
    { destruct (transition_eqb _ _); injection H as <-; split; reflexivity. }
    destruct Hc as [Ha Hs]. rewrite Ha. rewrite Hs in Hw.
    apply deliver_activations in Hc0; [exact Hc0|exact Hw].
  - unfold commandSettled in H. destruct (nth_error _ i); [|discriminate].
    apply deliver_activations in H; [exact H|exact Hw].
Qed.

(** ** The permission in the controller *)

Lemma deliver_permission c c' :
  deliver depth c = Some c' -> permission (subjects c') = permission (subjects c).
Proof. intros H. apply deliver_frame in H. apply H. Qed.

Lemma nextState_permission x v c c' :
  nextState x v c = Some c' -> permission (subjects c') = permission (subjects c).
Proof.
  intros H. apply nextState_effect in H. destruct H as (c1 & F & ->).
  destruct x; [destruct (transition_eqb v IS_ACTIVE)|]; apply F.
Qed.

Lemma step_permission c e c' :
  step c e = Some c' ->
  permission (subjects c') = permission (subjects c)
  \/ (e = GrantTemporary
      /\ permission (subjects c) = UNKNOWN /\ permission (subjects c') = TEMPORARY)
  \/ ((e = Reject \/ e = DebuggerDetached canceledByUser)
      /\ permission (subjects c') = REJECTED).
Proof.
  destruct e; cbn [step]; intros H;
    try (left; apply deliver_permission in H; exact H).
  - unfold grantTemporary, PermissionSubject.grantTemporary in H.
    destruct (permission_eqb_spec (permission (subjects c)) UNKNOWN) as [Hp|_].
    + right. left. apply nextPermission_frame in H. destruct H as [H _]. auto.
    + left. now injection H as <-.
  - right. right. split; [now left|]. exact (reject_permission c c' H).
  - unfold onDebuggerDetach in H. bind_inv H.
    apply nextState_permission in H.
    destruct (String.eqb_spec reason canceledByUser) as [->|_].
    + right. right. split; [now right|]. apply reject_permission in Hc0. congruence.
    + left. injection Hc0 as <-. exact H.
  - left. unfold actionSettled in H. destruct (nth_error _ i) as [d|]; [|discriminate].
    set (c1 := withActions x _ c) in H.
    assert (H1 : permission (subjects c1) = permission (subjects c))
      by (destruct x; reflexivity).
    destruct (BinaryTransitionSubject.settle d _ o).
    + apply nextState_permission in H. congruence.
    + now injection H as <-.
    + now injection H as <-.
  - left. unfold sendCommand in H. bind_inv H. apply deliver_permission in Hc0.
    destruct (transition_eqb _ _); injection H as <-; exact Hc0.
  - left. unfold commandSettled in H. destruct (nth_error _ i); [|discriminate].
    apply deliver_permission in H. exact H.
Qed.

Lemma step_permissionRank c e c' :
  step c e = Some c' ->
  (permissionRank (permission (subjects c)) <= permissionRank (permission (subjects c')))%nat.
Proof.
  intros H. apply step_permission in H.
  destruct H as [->|[(_ & -> & ->)|(_ & ->)]]; cbn; [lia|lia|].
  destruct (permission (subjects c)); cbn; lia.
Qed.

Lemma run_permissionRank es : forall c c',
  run c es = Some c' ->
  (permissionRank (permission (subjects c)) <= permissionRank (permission (subjects c')))%nat.
Proof.
  induction es as [|e es IH]; intros c c' H; cbn [run] in H.
  - injection H as <-. lia.
  - bind_inv H. apply IH in H. apply step_permissionRank in Hc0. lia.
Qed.

Lemma run_rejected es c c' :
  run c es = Some c' ->
  permission (subjects c) = REJECTED -> permission (subjects c') = REJECTED.
Proof.
  intros H Hp. apply run_permissionRank in H. rewrite Hp in H.
  destruct (permission (subjects c')); cbn in H; [lia|lia|reflexivity].
Qed.

(** ** At rest the subscriptions have nothing left to do *)

Lemma AtRest_ext c c' :
  subjects c' = subjects c -> previous c' = previous c -> AtRest c -> AtRest c'.
Proof. unfold AtRest. intros -> ->. auto. Qed.

Lemma AtRest_Deliverable c c' :
  AtRest c -> previous c' = previous c -> Deliverable c'.
Proof.
  intros [Hp Hg] Hprev Heq. rewrite <- Heq, Hprev, Hp. exact Hg.
Qed.

Lemma AttachmentGoverned_ext s s' :
  permission s' = permission s -> attachInterest s' = attachInterest s ->
  attachState s' = attachState s -> AttachmentGoverned s -> AttachmentGoverned s'.
Proof.
  unfold AttachmentGoverned, attachmentWanted. intros -> -> ->. auto.
Qed.

Section SubscriptionsRest.

Variable redeliver : Controller -> option Controller.
Hypothesis redeliver_rests :
  forall c c', Deliverable c -> redeliver c = Some c' -> AtRest c'.

Lemma next_rests x v c c' :
  Deliverable (store x v c) -> next redeliver x v c = Some c' -> AtRest c'.
Proof.
  unfold next. intros Hd H. bind_inv H.
  apply redeliver_rests in Hc0; [|exact Hd].
  destruct x; [destruct (transition_eqb v IS_ACTIVE)|];
    injection H as <-; exact Hc0.
Qed.

Lemma transition_rests x d c c' :
  intermediateState d <> beginningState d ->
  previous c = subjects c ->
  transition redeliver x d c = Some c' ->
  (c' = c /\ valueOf x c <> beginningState d) \/ AtRest c'.
Proof.
  unfold transition. intros Hd Hp H.
  destruct (transition_eqb_spec (valueOf x c) (beginningState d)) as [Hb|Hb].
  - right. bind_inv H. injection H as <-.
    apply next_rests in Hc0.
    + destruct x; (eapply AtRest_ext; [| |exact Hc0]; reflexivity).
    + intros Heq. exfalso. rewrite previous_store, Hp in Heq.
      symmetry in Heq. revert Heq. apply store_changes. congruence.
  - left. split; [congruence|exact Hb].
Qed.

Lemma governAttachment_rests c c' :
  previous c = subjects c ->
  governAttachment redeliver (subjects c) c = Some c' ->
  (c' = c /\ AttachmentGoverned (subjects c)) \/ AtRest c'.
Proof.
  unfold governAttachment, activate, deactivate. intros Hp H.
  destruct (permission_eqb_spec (permission (subjects c)) TEMPORARY) as [Ht|Ht];
    [destruct (Z.ltb_spec 0 (attachInterest (subjects c))) as [Hi|Hi]|];
    cbn [andb] in H;
    (apply transition_rests in H; [|discriminate|exact Hp]);
    (destruct H as [[-> Hb]|H]; [left; split; [reflexivity|]|right; exact H]);
    cbn in Hb; unfold AttachmentGoverned, attachmentWanted.
  - split; [auto|]. intros Hs. congruence.
  - split; [intros Hs; congruence|]. intros _ [_ Hw]. lia.
  - split; [intros Hs; congruence|]. intros _ [Hw _]. congruence.
Qed.

Lemma governWebAudioEvents_rests state c c' :
  previous c = subjects c ->
  (subjects c = state /\ AttachmentGoverned (subjects c)) \/ Governed (subjects c) ->
  governWebAudioEvents redeliver state c = Some c' -> AtRest c'.
Proof.
  unfold governWebAudioEvents, activate, deactivate. intros Hp Hc H.
  destruct (transition_eqb_spec (attachState state) IS_ACTIVE) as [Ha|Ha];
    cbn [andb] in H.
  - destruct (Z.ltb_spec 0 (webAudioEventInterest state)) as [Hi|Hi];
      (apply transition_rests in H; [|discriminate|exact Hp]);
      (destruct H as [[-> Hb]|H]; [|exact H]);
      (split; [exact Hp|]);
      (destruct Hc as [[<- Hg]|Hc]; [|exact Hc]);
      (split; [exact Hg|]); cbn in Hb; unfold WebAudioEventsGoverned.
    + split; [intros Hn; congruence|]. split; [auto|]. intros _ Hw. lia.
    + split; [intros Hn; congruence|]. split; [intros _ Hw; lia|auto].
  - apply next_rests in H; [exact H|].
    intros Heq. rewrite previous_store, Hp in Heq.
    destruct Hc as [[<- Hg]|Hc].
    + split.
      * eapply AttachmentGoverned_ext; [| | |exact Hg]; reflexivity.
      * unfold WebAudioEventsGoverned. cbn.
        split; [reflexivity|]. split; intros Hn; congruence.
    + now rewrite <- Heq.
Qed.

Lemma deliverBody_rests c c' :
  Deliverable c -> deliverBody redeliver c = Some c' -> AtRest c'.
Proof.
  unfold deliverBody. intros Hd H.
  destruct (sameState_spec (previous c) (subjects c)) as [Hs|_].
  - injection H as <-. split; auto.
  - bind_inv H.
    apply (governAttachment_rests (withPrevious (subjects c) c)) in Hc0;
      [|reflexivity].
    eapply governWebAudioEvents_rests; [| |exact H].
    + destruct Hc0 as [[-> _]|[Hp _]]; [reflexivity|exact Hp].
    + destruct Hc0 as [[-> Hg]|[_ Hg]]; [left; split; [reflexivity|exact Hg]|].
      right. exact Hg.
Qed.

End SubscriptionsRest.

Lemma deliver_rests fuel c c' :
  Deliverable c -> deliver fuel c = Some c' -> AtRest c'.
Proof.
  revert c c'. induction fuel as [|n IH]; intros c c' Hd H; [discriminate|].
  cbn [deliver] in H. eapply deliverBody_rests; eauto.
Qed.

Lemma nextState_rests x v c c' :
  AtRest c -> nextState x v c = Some c' -> AtRest c'.
Proof.
  intros Hs H. eapply next_rests; [apply deliver_rests| |exact H].
  eapply AtRest_Deliverable; [exact Hs|apply previous_store].
Qed.

Lemma deliver_written_rests c c0 c' :
  AtRest c -> previous c0 = previous c ->
  deliver depth c0 = Some c' -> AtRest c'.
Proof.
  intros Hs Hp H. eapply deliver_rests; [|exact H].
  eapply AtRest_Deliverable; eauto.
Qed.

Lemma reject_rests c c' : AtRest c -> reject c = Some c' -> AtRest c'.
Proof.
  unfold reject. intros Hs H. destruct (PermissionSubject.reject _).
  - eapply deliver_written_rests; [exact Hs| |exact H]. reflexivity.
  - now injection H as <-.
Qed.

Lemma step_rests c e c' : AtRest c -> step c e = Some c' -> AtRest c'.
Proof.
  intros Hs H. destruct e; cbn [step] in H;
    try (eapply deliver_written_rests; [exact Hs| |exact H]; reflexivity).
  - unfold grantTemporary in H. destruct (PermissionSubject.grantTemporary _).
    + eapply deliver_written_rests; [exact Hs| |exact H]. reflexivity.
    + now injection H as <-.
  - eapply reject_rests; eauto.
  - unfold onDebuggerDetach in H. bind_inv H.
    eapply nextState_rests; [|exact H].
    destruct (String.eqb reason canceledByUser).
    + eapply reject_rests; eauto.
    + now injection Hc0 as <-.
  - unfold actionSettled in H. destruct (nth_error _ i) as [d|]; [|discriminate].
    set (c1 := withActions x _ c) in H.
    assert (Hs1 : AtRest c1) by (destruct x; exact Hs).
    destruct (BinaryTransitionSubject.settle d _ o).
    + eapply nextState_rests; eauto.
    + now injection H as <-.
    + injection H as <-. exact Hs1.
  - unfold sendCommand in H. bind_inv H.
    assert (Hr : AtRest c0).
    { eapply deliver_written_rests; [exact Hs| |exact Hc0]. reflexivity. }
    destruct (transition_eqb _ _); injection H as <-; exact Hr.
  - unfold commandSettled in H. destruct (nth_error _ i); [|discriminate].
    eapply deliver_written_rests; [exact Hs| |exact H]. reflexivity.
Qed.

Lemma run_rests es : forall c c', AtRest c -> run c es = Some c' -> AtRest c'.
Proof.
  induction es as [|e es IH]; intros c c' Hs H; cbn [run] in H.
  - now injection H as <-.
  - bind_inv H. eapply IH; [|exact H]. eapply step_rests; eauto.
Qed.

Lemma initial_rests : AtRest initial.
Proof.
  split; [reflexivity|]. split.
  - split; cbn; [discriminate|]. intros _ [Hp _]. discriminate.
  - split; [reflexivity|]. split; cbn; discriminate.
Qed.

Lemma reachable_rests c : reachable c -> AtRest c.
Proof. intros [es H]. eapply run_rests; [apply initial_rests|exact H]. Qed.

(** ** A transit has its call in flight *)

Lemma Carried_refl x c : Carried x c c.
Proof. split; [apply incl_refl|]. split; auto. Qed.

Lemma Carried_Pending x c c' : Carried x c c' -> Pending x c -> Pending x c'.
Proof.
  intros (Hi & _ & [Hp|Hv]) [Ha Hd]; [exact Hp|].
  unfold Pending. rewrite Hv. split; intros Hs; apply Hi; auto.
Qed.

Lemma Carried_trans x c1 c2 c3 : Carried x c1 c2 -> Carried x c2 c3 -> Carried x c1 c3.
Proof.
  intros (Hi & Hf & Hp) (Hi' & Hf' & Hp').
  split; [eapply incl_tran; eauto|]. split; [auto|].
  destruct Hp' as [Hp'|Hv']; [left; exact Hp'|].
  destruct Hp as [Hp|Hv]; [left|right; congruence].
  eapply Carried_Pending; [|exact Hp].
  split; [exact Hi'|]. split; [exact Hf'|]. right. exact Hv'.
Qed.

Lemma Carried_ext x c c' :
  actionsOf x c' = actionsOf x c -> valueOf x c' = valueOf x c -> Carried x c c'.
Proof.
  intros Ha Hv. unfold Carried. rewrite Ha, Hv.
  split; [apply incl_refl|]. split; auto.
Qed.

Lemma valueOf_store_other x y v c : x <> y -> valueOf y (store x v c) = valueOf y c.
Proof. destruct x, y; congruence || reflexivity. Qed.

Lemma actionsOf_store x y v c : actionsOf y (store x v c) = actionsOf y c.
Proof. destruct x, y; reflexivity. Qed.

Lemma valueOf_started x y d c : valueOf y (started x d c) = valueOf y c.
Proof. destruct x, y; reflexivity. Qed.

Lemma actionsOf_started x d c : actionsOf x (started x d c) = actionsOf x c ++ [d].
Proof. destruct x; reflexivity. Qed.

Lemma actionsOf_started_other x y d c :
  x <> y -> actionsOf y (started x d c) = actionsOf y c.
Proof. destruct x, y; congruence || reflexivity. Qed.

Lemma Subject_eq_dec (x y : Subject) : {x = y} + {x <> y}.
Proof. decide equality. Qed.

Lemma Pending_resting x c :
  valueOf x c = IS_INACTIVE \/ valueOf x c = IS_ACTIVE -> Pending x c.
Proof. intros [H|H]; split; intros Hs; congruence. Qed.

Section SubscriptionsCarry.

Variable redeliver : Controller -> option Controller.
Hypothesis redeliver_carries :
  forall c c' x, redeliver c = Some c' -> Carried x c c'.

Lemma next_redelivered x v c c' :
  next redeliver x v c = Some c' ->
  exists c0, redeliver (store x v c) = Some c0
             /\ (forall y, actionsOf y c' = actionsOf y c0)
             /\ (forall y, valueOf y c' = valueOf y c0)
             /\ unhandled c' = unhandled c0.
Proof.
  unfold next. intros H. bind_inv H. exists c0. split; [exact Hc0|].
  destruct x; [destruct (transition_eqb v IS_ACTIVE)|]; injection H as <-;
    (split; [|split]); try reflexivity; intros []; reflexivity.
Qed.

(** A value that is no transit, sent to [x]. *)
Lemma next_carries x v c c' :
  v = IS_INACTIVE \/ v = IS_ACTIVE ->
  next redeliver x v c = Some c' ->
  Pending x c' /\ forall y, Carried y c c'.
Proof.
  intros Hv H. apply next_redelivered in H. destruct H as (c0 & H & Ha & Hs & _).
  assert (Hc : forall y, Carried y (store x v c) c').
  { intros y. eapply Carried_trans; [eapply redeliver_carries; exact H|].
    apply Carried_ext; auto. }
  assert (Hp : Pending x c').
  { eapply Carried_Pending; [apply Hc|].
    apply Pending_resting. rewrite valueOf_store. tauto. }
  split; [exact Hp|]. intros y. destruct (Hc y) as (Hi & Hf & Hq).
  rewrite actionsOf_store in Hi, Hf.
  split; [exact Hi|]. split; [exact Hf|].
  destruct (Subject_eq_dec x y) as [<-|Hn]; [left; exact Hp|].
  rewrite valueOf_store_other in Hq by exact Hn. exact Hq.
Qed.

Lemma transition_carries x d c c' :
  built d ->
  transition redeliver x d c = Some c' -> forall y, Carried y c c'.
Proof.
  unfold transition. intros Hd H y.
  destruct (transition_eqb _ _); [|injection H as <-; apply Carried_refl].
  bind_inv H. injection H as <-.
  apply next_redelivered in Hc0. destruct Hc0 as (c1 & H & Ha & Hs & _).
  apply (redeliver_carries _ _ y) in H. destruct H as (Hi & Hf & Hq).
  rewrite actionsOf_store in Hi, Hf. rewrite <- Ha in Hi, Hf.
  assert (Hin : incl (actionsOf y c0) (actionsOf y (started x d c0))).
  { destruct (Subject_eq_dec x y) as [<-|Hn].
    - rewrite actionsOf_started. apply incl_appl, incl_refl.
    - rewrite actionsOf_started_other by exact Hn. apply incl_refl. }
  split; [eapply incl_tran; eauto|]. split.
  - intros Hb. apply Hf in Hb.
    destruct (Subject_eq_dec x y) as [<-|Hn].
    + rewrite actionsOf_started. apply Forall_app. split; [exact Hb|]. now constructor.
    + now rewrite actionsOf_started_other by exact Hn.
  - assert (Hk : forall c2, (forall z, actionsOf z c2 = actionsOf z c1) ->
                   (forall z, valueOf z c2 = valueOf z c1) ->
                   Pending y c1 -> Pending y c2).
    { intros c2 Ha2 Hs2. unfold Pending. now rewrite Ha2, Hs2. }
    destruct Hq as [Hq|Hq].
    + left. apply (Hk c0 Ha Hs) in Hq. destruct Hq as [Q1 Q2].
      split; rewrite valueOf_started; intros Hv; apply Hin; auto.
    + rewrite <- Hs in Hq.
      destruct (Subject_eq_dec x y) as [<-|Hn].
      * left. rewrite valueOf_store in Hq.
        split; rewrite valueOf_started, actionsOf_started, Hq; intros Hv;
          apply in_or_app; right; left;
          destruct Hd as [->| ->]; cbn in Hv; congruence.
      * right. rewrite valueOf_started, Hq. now apply valueOf_store_other.
Qed.

Lemma deliverBody_carries c c' x :
  deliverBody redeliver c = Some c' -> Carried x c c'.
Proof.
  unfold deliverBody. destruct (sameState _ _).
  - intros H. injection H as <-. apply Carried_refl.
  - intros H. bind_inv H.
    assert (H1 : Carried x (withPrevious (subjects c) c) c0).
    { revert Hc0. unfold governAttachment, activate, deactivate.
      destruct (_ && _); intros Hc0;
        (eapply transition_carries; [|exact Hc0]); [now left|now right]. }
    assert (H2 : Carried x c0 c').
    { revert H. unfold governWebAudioEvents, activate, deactivate.
      destruct (_ && _);
        [intros H; eapply transition_carries; [|exact H]; now left|].
      destruct (transition_eqb _ _);
        [intros H; eapply transition_carries; [|exact H]; now right|].
      intros H. apply next_carries in H; [apply H|now left]. }
    eapply Carried_trans; [|exact H2].
    eapply Carried_trans; [|exact H1].
    apply Carried_ext; destruct x; reflexivity.
Qed.

End SubscriptionsCarry.

Lemma deliver_carries fuel : forall c c' x,
  deliver fuel c = Some c' -> Carried x c c'.
Proof.
  induction fuel as [|n IH]; intros c c' x H; [discriminate|].
  cbn [deliver] in H. eapply deliverBody_carries; eauto.
Qed.

Lemma removeAt_split {A : Type} (l : list A) : forall i d,
  nth_error l i = Some d ->
  exists l1 l2, l = l1 ++ d :: l2 /\ removeAt i l = l1 ++ l2.
Proof.
  induction l as [|a l IH]; intros [|i] d H; try discriminate.
  - injection H as ->. exists [], l. split; reflexivity.
  - destruct (IH i d H) as (l1 & l2 & Hl & Hr).
    exists (a :: l1), l2. split; [cbn; now rewrite <- Hl|].
    change (removeAt (S i) (a :: l) = a :: (l1 ++ l2)).
    rewrite <- Hr. reflexivity.
Qed.

Lemma In_removeAt_other {A : Type} (l : list A) i d a :
  nth_error l i = Some d -> In a l -> a <> d -> In a (removeAt i l).
Proof.
  intros H Hin Hne. destruct (removeAt_split l i d H) as (l1 & l2 & Hl & Hr).
  rewrite Hr. rewrite Hl in Hin. apply in_app_or in Hin. apply in_or_app.
  destruct Hin as [Hin|[Hin|Hin]]; [now left|congruence|now right].
Qed.

Lemma incl_removeAt {A : Type} (l : list A) i : incl (removeAt i l) l.
Proof.
  unfold removeAt. intros a Hin. apply in_app_or in Hin.
  destruct Hin as [Hin|Hin].
  - rewrite <- (firstn_skipn i l). apply in_or_app. now left.
  - rewrite <- (firstn_skipn (S i) l). apply in_or_app. now right.
Qed.

Lemma Forall_removeAt {A : Type} (P : A -> Prop) (l : list A) i :
  Forall P l -> Forall P (removeAt i l).
Proof.
  rewrite !Forall_forall. intros H a Hin. apply H. eapply incl_removeAt; eauto.
Qed.

(** What a settlement can be, for the descriptions the constructor builds. *)
Lemma settle_cases d value o :
  built d ->
  match BinaryTransitionSubject.settle d value o with
  | Next v => v = IS_INACTIVE \/ v = IS_ACTIVE
  | Empty => value <> intermediateState d
  | Thrown => True
  end.
Proof.
  intros Hd. destruct o as [|[[m|]]]; cbn;
    unfold BinaryTransitionSubject.onComplete, BinaryTransitionSubject.onError; cbn.
  - destruct (transition_eqb_spec value (intermediateState d)); [|assumption].
    destruct Hd as [->| ->]; cbn; auto.
  - destruct (String.prefix alreadyAttached m);
      destruct (transition_eqb_spec value (intermediateState d));
      try assumption; destruct Hd as [->| ->]; cbn; auto.
  - exact I.
Qed.

Lemma Accounted_ext c c' :
  (forall x, actionsOf x c' = actionsOf x c) ->
  (forall x, valueOf x c' = valueOf x c) ->
  unhandled c' = unhandled c ->
  Accounted c -> Accounted c'.
Proof.
  intros Ha Hv Hu (H1 & H2 & H3).
  pose proof (Ha AttachState) as Ha1. pose proof (Ha WebAudioEventState) as Ha2.
  cbn in Ha1, Ha2. unfold Accounted, Pending.
  rewrite Ha1, Ha2, Hu. split; [exact H1|]. split; [exact H2|].
  intros Hz x. rewrite Ha, Hv. now apply H3.
Qed.

Lemma deliver_accounted c c' :
  Accounted c -> deliver depth c = Some c' -> Accounted c'.
Proof.
  intros (H1 & H2 & H3) H.
  pose proof (deliver_carries _ _ _ AttachState H) as (_ & Hf1 & _).
  pose proof (deliver_carries _ _ _ WebAudioEventState H) as (_ & Hf2 & _).
  split; [now apply Hf1|]. split; [now apply Hf2|].
  intros Hz x. eapply Carried_Pending; [eapply deliver_carries; exact H|].
  apply H3. apply deliver_frame in H. destruct H as (_&_&_&_&_&Hu). congruence.
Qed.

(** A value that is no transit, sent to [x], accounts for [x] again. *)
Lemma nextState_accounted x v c c' :
  v = IS_INACTIVE \/ v = IS_ACTIVE ->
  Forall built (attachActions c) -> Forall built (webAudioEventActions c) ->
  (unhandled c = 0%nat -> forall y, y <> x -> Pending y c) ->
  nextState x v c = Some c' -> Accounted c'.
Proof.
  intros Hv H1 H2 H3 H. unfold nextState in H.
  apply next_redelivered in H. destruct H as (c0 & H & Ha & Hs & Hu).
  assert (Hc : Accounted c0).
  { eapply deliver_accounted; [|exact H].
    split; [destruct x; exact H1|]. split; [destruct x; exact H2|].
    intros Hz y. destruct (Subject_eq_dec x y) as [<-|Hn].
    - apply Pending_resting. rewrite valueOf_store. tauto.
    - unfold Pending. rewrite valueOf_store_other, actionsOf_store by exact Hn.
      apply H3; [destruct x; exact Hz|congruence]. }
  eapply Accounted_ext; [exact Ha|exact Hs|exact Hu|exact Hc].
Qed.

Lemma deliver_written_accounted c c0 c' :
  Accounted c ->
  (forall x, actionsOf x c0 = actionsOf x c) ->
  (forall x, valueOf x c0 = valueOf x c) ->
  unhandled c0 = unhandled c ->
  deliver depth c0 = Some c' -> Accounted c'.
Proof.
  intros Hc Ha Hv Hu H. eapply deliver_accounted; [|exact H].
  eapply Accounted_ext; eauto.
Qed.

Lemma reject_accounted c c' : Accounted c -> reject c = Some c' -> Accounted c'.
Proof.
  unfold reject. intros Hc H. destruct (PermissionSubject.reject _).
  - eapply deliver_written_accounted; [exact Hc| | | |exact H];
      try reflexivity; intros []; reflexivity.
  - now injection H as <-.
Qed.

Lemma step_accounted c e c' : Accounted c -> step c e = Some c' -> Accounted c'.
Proof.
  intros Hc H. destruct e; cbn [step] in H;
    try (eapply deliver_written_accounted; [exact Hc| | | |exact H];
         try reflexivity; intros []; reflexivity).
  - unfold grantTemporary in H. destruct (PermissionSubject.grantTemporary _).
    + eapply deliver_written_accounted; [exact Hc| | | |exact H];
        try reflexivity; intros []; reflexivity.
    + now injection H as <-.
  - eapply reject_accounted; eauto.
  - unfold onDebuggerDetach in H. bind_inv H.
    assert (Hc1 : Accounted c0).
    { destruct (String.eqb reason canceledByUser).
      - eapply reject_accounted; eauto.
      - now injection Hc0 as <-. }
    destruct Hc1 as (H1 & H2 & H3).
    eapply nextState_accounted; [now left|exact H1|exact H2| |exact H].
    intros Hz y _. now apply H3.
  - unfold actionSettled in H.
    destruct (nth_error (actionsOf x c) i) as [d|] eqn:Hd; [|discriminate].
    destruct Hc as (H1 & H2 & H3).
    assert (Hb : built d).
    { apply nth_error_In in Hd. destruct x; cbn in Hd;
        [eapply Forall_forall in H1|eapply Forall_forall in H2]; eauto. }
    set (c1 := withActions x (removeAt i (actionsOf x c)) c) in H.
    assert (F1 : Forall built (attachActions c1)).
    { subst c1. destruct x; cbn; [now apply Forall_removeAt|exact H1]. }
    assert (F2 : Forall built (webAudioEventActions c1)).
    { subst c1. destruct x; cbn; [exact H2|now apply Forall_removeAt]. }
    assert (P1 : unhandled c1 = 0%nat -> forall y, y <> x -> Pending y c1).
    { intros Hz y Hn. assert (Hz' : unhandled c = 0%nat) by (destruct x; exact Hz).
      specialize (H3 Hz' y). subst c1. destruct x, y; try congruence; exact H3. }
    pose proof (settle_cases d (valueOf x c1) o Hb) as Hs.
    destruct (BinaryTransitionSubject.settle d (valueOf x c1) o) as [v| |].
    + eapply nextState_accounted; [exact Hs|exact F1|exact F2|exact P1|exact H].
    + injection H as <-. split; [exact F1|]. split; [exact F2|].
      intros Hz y. destruct (Subject_eq_dec y x) as [->|Hn]; [|now apply P1].
      assert (Hz' : unhandled c = 0%nat) by (destruct x; exact Hz).
      specialize (H3 Hz' x). destruct H3 as [Q1 Q2].
      assert (Hv : valueOf x c1 = valueOf x c) by apply valueOf_withActions.
      assert (Ha : actionsOf x c1 = removeAt i (actionsOf x c))
        by (subst c1; destruct x; reflexivity).
      unfold Pending. rewrite Hv, Ha. rewrite Hv in Hs.
      split; intros Hq; (eapply In_removeAt_other; [exact Hd|auto|]);
        intros <-; apply Hs; rewrite Hq; reflexivity.
    + injection H as <-. split; [exact F1|]. split; [exact F2|].
      intros Hz. discriminate.
  - unfold sendCommand in H. bind_inv H.
    assert (Hr : Accounted c0).
    { eapply deliver_written_accounted; [exact Hc| | | |exact Hc0];
        try reflexivity; intros []; reflexivity. }
    destruct (transition_eqb _ _); injection H as <-;
      (eapply Accounted_ext; [| | |exact Hr]); try reflexivity; intros []; reflexivity.
  - unfold commandSettled in H. destruct (nth_error _ i); [|discriminate].
    eapply deliver_written_accounted; [exact Hc| | | |exact H];
      try reflexivity; intros []; reflexivity.
Qed.

Lemma run_accounted es : forall c c',
  Accounted c -> run c es = Some c' -> Accounted c'.
Proof.
  induction es as [|e es IH]; intros c c' Hs H; cbn [run] in H.
  - now injection H as <-.
  - bind_inv H. eapply IH; [|exact H]. eapply step_accounted; eauto.
Qed.

Lemma initial_accounted : Accounted initial.
Proof.
  split; [constructor|]. split; [constructor|].
  intros _ x. apply Pending_resting. left. now destruct x.
Qed.

(** ** The web audio event interest *)

Lemma deliver_listeners c c' :
  deliver depth c = Some c' ->
  webAudioEventInterest (subjects c') = webAudioEventInterest (subjects c).
Proof. intros H. apply deliver_frame in H. apply H. Qed.

Lemma nextState_listeners x v c c' :
  nextState x v c = Some c' ->
  webAudioEventInterest (subjects c') = webAudioEventInterest (subjects c).
Proof.
  intros H. apply nextState_effect in H. destruct H as (c1 & F & ->).
  destruct x; [destruct (transition_eqb v IS_ACTIVE)|]; apply F.
Qed.

Lemma step_listeners c e c' :
  step c e = Some c' ->
  webAudioEventInterest (subjects c')
  = webAudioEventInterest (subjects c) + listenerInterest e.
Proof.
  destruct e; cbn [step listenerInterest]; intros H;
    try (apply deliver_listeners in H; rewrite H;
         unfold CounterSubject.increment, CounterSubject.decrement; cbn; lia).
  - unfold grantTemporary in H. destruct (PermissionSubject.grantTemporary _).
    + apply deliver_listeners in H. rewrite H. cbn. lia.
    + injection H as <-. lia.
  - unfold reject in H. destruct (PermissionSubject.reject _).
    + apply deliver_listeners in H. rewrite H. cbn. lia.
    + injection H as <-. lia.
  - unfold onDebuggerDetach in H. bind_inv H.
    apply nextState_listeners in H. rewrite H.
    destruct (String.eqb reason canceledByUser).
    + unfold reject in Hc0. destruct (PermissionSubject.reject _).
      * apply deliver_listeners in Hc0. rewrite Hc0. cbn. lia.
      * injection Hc0 as <-. lia.
    + injection Hc0 as <-. lia.
  - unfold actionSettled in H. destruct (nth_error _ i) as [d|]; [|discriminate].
    set (c1 := withActions x _ c) in H.
    assert (H1 : webAudioEventInterest (subjects c1) = webAudioEventInterest (subjects c))
      by (destruct x; reflexivity).
    destruct (BinaryTransitionSubject.settle d _ o).
    + apply nextState_listeners in H. lia.
    + injection H as <-. lia.
    + injection H as <-. cbn [subjects withUnhandled]. lia.
  - unfold sendCommand in H. bind_inv H. apply deliver_listeners in Hc0.
    cbn in Hc0.
    destruct (transition_eqb _ _); injection H as <-; cbn [subjects withCommands withWaiting];
      lia.
  - unfold commandSettled in H. destruct (nth_error _ i); [|discriminate].
    apply deliver_listeners in H. rewrite H. cbn. lia.
Qed.

(** * Further properties of the controller *)

(** X1.  A write to any of the five subjects sets off a chain of deliveries
    that ends: from any state at all the chain is at most four deliveries
    deep, and a larger bound gives the same result.  So an event is handled,
    to rest, exactly when its callback is due. *)
Theorem deliveries_end :
  (forall c, exists c', deliver depth c = Some c')
  /\ (forall k c, deliver (k + depth) c = deliver depth c)
  /\ (forall c e, enabled c e <-> exists c', step c e = Some c').
Proof.
  split; [exact deliver_total|]. split; [exact deliver_any_fuel|].
  intros c e. split; [apply step_total|].
  intros [c' H]. eapply step_enabled; eauto.
Qed.

(** X2.  Between two events the attachment agrees with the permission and
    the interest: it is [IS_ACTIVE] only if the permission is [TEMPORARY] and
    the attachment interest positive, and it is [IS_INACTIVE] only if not
    both hold. *)
Theorem attachment_follows_permission_and_interest c :
  reachable c ->
  (attachState (subjects c) = IS_ACTIVE ->
     permission (subjects c) = TEMPORARY /\ 0 < attachInterest (subjects c))
  /\ (attachState (subjects c) = IS_INACTIVE ->
     ~ (permission (subjects c) = TEMPORARY /\ 0 < attachInterest (subjects c))).
Proof.
  intros Hr. apply reachable_rests in Hr. destruct Hr as [_ [Ha _]]. exact Ha.
Qed.

Lemma attachment_follows_permission_and_interest_witness :
  reachable bothActive
  /\ permission (subjects bothActive) = TEMPORARY
  /\ 0 < attachInterest (subjects bothActive).
Proof.
  assert (Hr : reachable bothActive)
    by (exists attachedAndListening; vm_compute; reflexivity).
  split; [exact Hr|].
  apply (proj1 (attachment_follows_permission_and_interest bothActive Hr)).
  reflexivity.
Defined.

(** X3.  Between two events the web audio event subject agrees with the
    attachment and the listeners: it is [IS_INACTIVE] whenever the attachment
    is not [IS_ACTIVE]; it is [IS_ACTIVE] only if the web audio event interest
    is positive; and while the attachment is [IS_ACTIVE] and that interest is
    positive it is not [IS_INACTIVE]. *)
Theorem webAudioEvents_follow_attachment_and_interest c :
  reachable c ->
  (attachState (subjects c) <> IS_ACTIVE ->
     webAudioEventState (subjects c) = IS_INACTIVE)
  /\ (webAudioEventState (subjects c) = IS_ACTIVE ->
     0 < webAudioEventInterest (subjects c))
  /\ (attachState (subjects c) = IS_ACTIVE ->
     0 < webAudioEventInterest (subjects c) ->
     webAudioEventState (subjects c) <> IS_INACTIVE).
Proof.
  intros Hr. apply reachable_rests in Hr. destruct Hr as [_ [_ (H1 & H2 & H3)]].
  split; [exact H1|]. split; [|exact H2].
  intros Hw.
  destruct (transition_eqb_spec (attachState (subjects c)) IS_ACTIVE) as [Ha|Ha].
  - destruct (Z.lt_ge_cases 0 (webAudioEventInterest (subjects c))) as [Hi|Hi];
      [exact Hi|]. exfalso. apply (H3 Ha); [lia|exact Hw].
  - apply H1 in Ha. congruence.
Qed.

Lemma webAudioEvents_follow_attachment_and_interest_witness :
  reachable detachingWhileListening
  /\ webAudioEventState (subjects detachingWhileListening) = IS_INACTIVE.
Proof.
  assert (Hr : reachable detachingWhileListening)
    by (exists (attachedAndListening ++ [DecrementAttachInterest]);
        vm_compute; reflexivity).
  split; [exact Hr|].
  apply (proj1 (webAudioEvents_follow_attachment_and_interest
                  detachingWhileListening Hr)).
  discriminate.
Defined.

(** X6.  A transition of the attachment that starts makes one chrome call
    and leaves the subject in the intermediate state, whatever the
    subscriptions do in between; from there [activate] and [deactivate] both
    do nothing, so the call is not repeated and the opposite request is
    dropped. *)
Theorem attachment_transition_starts_once d c :
  built d ->
  attachState (subjects c) = beginningState d ->
  exists c1,
    transition (deliver depth) AttachState d c = Some c1
    /\ attachState (subjects c1) = intermediateState d
    /\ attachActions c1 = attachActions c ++ [d]
    /\ activate (deliver depth) AttachState c1 = Some c1
    /\ deactivate (deliver depth) AttachState c1 = Some c1.
Proof.
  intros Hd Hb. unfold transition at 1. cbn [valueOf]. rewrite Hb, transition_eqb_refl.
  unfold next.
  destruct (deliver_total (store AttachState (intermediateState d) c)) as [c0 H0].
  rewrite H0. cbn [bind].
  assert (Hi : intermediateState d = ACTIVATING \/ intermediateState d = DEACTIVATING)
    by (destruct Hd as [->| ->]; cbn; auto).
  assert (Hn : transition_eqb (intermediateState d) IS_ACTIVE = false)
    by (destruct Hi as [->| ->]; reflexivity).
  rewrite Hn. eexists. split; [reflexivity|].
  apply deliver_effect in H0. destruct H0 as [_ A].
  assert (Hs : attachState (subjects c0) = intermediateState d
               /\ attachActions c0 = attachActions c).
  { destruct A as [[Hs Ha]|[(Hs & _)|(Hs & _)]]; cbn in Hs.
    - split; [exact Hs|exact Ha].
    - destruct Hi as [Hi|Hi]; congruence.
    - destruct Hi as [Hi|Hi]; congruence. }
  destruct Hs as [Hs Ha]. cbn [started subjects attachActions withAttachActions].
  split; [exact Hs|]. split; [now rewrite Ha|].
  unfold activate, deactivate, transition. cbn [valueOf subjects withAttachActions].
  rewrite Hs. destruct Hi as [->| ->]; split; reflexivity.
Qed.

Lemma attachment_transition_starts_once_witness :
  built activateTransition
  /\ attachState (subjects initial) = beginningState activateTransition
  /\ exists c1,
      transition (deliver depth) AttachState activateTransition initial = Some c1
      /\ attachState (subjects c1) = ACTIVATING.
Proof.
  assert (Hd : built activateTransition) by (left; reflexivity).
  assert (Hb : attachState (subjects initial) = beginningState activateTransition)
    by reflexivity.
  split; [exact Hd|]. split; [exact Hb|].
  destruct (attachment_transition_starts_once activateTransition initial Hd Hb)
    as (c1 & H1 & H2 & _).
  exists c1. split; assumption.
Defined.

(** X7.  As long as no action has failed with an error that has no message,
    a transition subject that holds [ACTIVATING] has an activation call in
    flight and one that holds [DEACTIVATING] has a deactivation call in
    flight: a callback that will settle it is still to come. *)
Theorem transit_has_call_in_flight c x :
  reachable c ->
  unhandled c = 0%nat ->
  (valueOf x c = ACTIVATING -> In activateTransition (actionsOf x c))
  /\ (valueOf x c = DEACTIVATING -> In deactivateTransition (actionsOf x c)).
Proof.
  intros [es H] Hz.
  destruct (run_accounted es initial c initial_accounted H) as (_ & _ & Hp).
  exact (Hp Hz x).
Qed.

Lemma transit_has_call_in_flight_witness :
  reachable detachingWhileListening
  /\ unhandled detachingWhileListening = 0%nat
  /\ In deactivateTransition (actionsOf AttachState detachingWhileListening).
Proof.
  assert (Hr : reachable detachingWhileListening)
    by (exists (attachedAndListening ++ [DecrementAttachInterest]);
        vm_compute; reflexivity).
  split; [exact Hr|]. split; [reflexivity|].
  apply (proj2 (transit_has_call_in_flight detachingWhileListening AttachState
                  Hr eq_refl)).
  reflexivity.
Defined.

(** X8.  In the controller the permission only moves forward, from
    [UNKNOWN] to [TEMPORARY] to [REJECTED], under every sequence of events,
    detach notifications and callbacks included; and a single event changes
    it only if it is [grantTemporary] on [UNKNOWN], [reject], or a detach
    notification with the reason "canceled_by_user". *)
Theorem permission_only_moves_forward es c c' :
  run c es = Some c' ->
  (permissionRank (permission (subjects c))
   <= permissionRank (permission (subjects c')))%nat
  /\ (forall e c1, step c' e = Some c1 ->
        permission (subjects c1) <> permission (subjects c') ->
        e = GrantTemporary \/ e = Reject \/ e = DebuggerDetached canceledByUser).
Proof.
  intros H. split; [exact (run_permissionRank es c c' H)|].
  intros e c1 H1 Hn. apply step_permission in H1.
  destruct H1 as [H1|[(-> & _)|([-> | ->] & _)]]; auto. congruence.
Qed.

Lemma permission_only_moves_forward_witness :
  exists c',
    run initial [GrantTemporary; DebuggerDetached canceledByUser; GrantTemporary]
    = Some c'
    /\ permission (subjects c') = REJECTED
    /\ (permissionRank (permission (subjects initial))
        <= permissionRank (permission (subjects c')))%nat.
Proof.
  eexists. split; [vm_compute; reflexivity|]. split; [reflexivity|].
  eapply (proj1 (permission_only_moves_forward
                   [GrantTemporary; DebuggerDetached canceledByUser; GrantTemporary]
                   initial _ _)).
  Unshelve. vm_compute. reflexivity.
Defined.

Lemma sameState_refl s : sameState s s = true.
Proof. destruct (sameState_spec s s); congruence. Qed.

Lemma deliver_nothing c : previous c = subjects c -> deliver depth c = Some c.
Proof.
  intros Hp. unfold depth. cbn [deliver]. unfold deliverBody at 1.
  now rewrite Hp, sameState_refl.
Qed.

Lemma store_same x c : store x (valueOf x c) c = c.
Proof. destruct c as [[p a s w e] prev aa wa wt cm u], x; reflexivity. Qed.

(** X9.  A detach notification that finds the attachment subject at
    [IS_INACTIVE] changes nothing, provided its reason is not
    "canceled_by_user" or the permission is [REJECTED] already: the combined
    state is the one delivered last, and no subscription runs. *)
Theorem detach_when_inactive_changes_nothing reason c :
  reachable c ->
  attachState (subjects c) = IS_INACTIVE ->
  reason <> canceledByUser \/ permission (subjects c) = REJECTED ->
  onDebuggerDetach reason c = Some c.
Proof.
  intros Hr Hs Hc. apply reachable_rests in Hr. destruct Hr as [Hp _].
  assert (Hn : nextState AttachState IS_INACTIVE c = Some c).
  { unfold nextState, next.
    change IS_INACTIVE with (id IS_INACTIVE) at 1.
    replace (id IS_INACTIVE) with (valueOf AttachState c) by exact Hs.
    rewrite store_same, (deliver_nothing c Hp). reflexivity. }
  unfold onDebuggerDetach.
  destruct (String.eqb_spec reason canceledByUser) as [He|He].
  - destruct Hc as [Hc|Hc]; [congruence|].
    unfold reject, PermissionSubject.reject. rewrite Hc. exact Hn.
  - exact Hn.
Qed.

Lemma detach_when_inactive_changes_nothing_witness :
  reachable initial
  /\ onDebuggerDetach "target_closed" initial = Some initial.
Proof.
  assert (Hr : reachable initial) by (exists []; reflexivity).
  split; [exact Hr|].
  apply (detach_when_inactive_changes_nothing "target_closed" initial Hr).
  - reflexivity.
  - left. discriminate.
Defined.

(** X10.  [sendCommand] called while the attachment is [IS_ACTIVE] sends
    its command at once: the request does not wait, the attachment stays
    [IS_ACTIVE], and no chrome call other than the command is made for the
    attachment. *)
Theorem sendCommand_while_attached m c :
  reachable c ->
  attachState (subjects c) = IS_ACTIVE ->
  exists c',
    sendCommand m c = Some c'
    /\ commands c' = commands c ++ [m]
    /\ waiting c' = waiting c
    /\ attachState (subjects c') = IS_ACTIVE
    /\ attachActions c' = attachActions c.
Proof.
  intros Hr Hs. apply reachable_rests in Hr. destruct Hr as [_ [[Hw _] _]].
  destruct (Hw Hs) as [Hp Hi].
  unfold sendCommand, nextAttachInterest.
  set (c0 := withSubjects _ c).
  destruct (deliver_total c0) as [c1 H1]. rewrite H1. cbn [bind].
  apply deliver_effect in H1. destruct H1 as [(_ & _ & _ & Hwt & Hcm & _) A].
  assert (Ha : attachState (subjects c1) = IS_ACTIVE /\ attachActions c1 = attachActions c).
  { destruct A as [[Ha Hl]|[(Ha & _)|(_ & Hn & _)]]; subst c0;
      cbn [subjects withSubjects setAttachInterest attachState attachInterest
           permission attachActions] in *.
    - split; congruence.
    - congruence.
    - exfalso. apply Hn. split; [exact Hp|].
      cbn. unfold CounterSubject.increment. lia. }
  destruct Ha as [Ha Hl]. rewrite Ha. cbn [transition_eqb].
  eexists. split; [reflexivity|]. cbn.
  rewrite Hcm, Hwt. auto.
Qed.

Lemma sendCommand_while_attached_witness :
  reachable bothActive
  /\ exists c', sendCommand "A" bothActive = Some c' /\ commands c' = ["A"%string].
Proof.
  assert (Hr : reachable bothActive)
    by (exists attachedAndListening; vm_compute; reflexivity).
  split; [exact Hr|].
  destruct (sendCommand_while_attached "A" bothActive Hr eq_refl)
    as (c' & H1 & H2 & _).
  exists c'. split; [exact H1|exact H2].
Defined.

(** X11.  [sendCommand] called with the permission [TEMPORARY] while the
    attachment is [IS_INACTIVE] (and the interest not negative) starts the
    attachment: one [attach] call is made, the subject holds [ACTIVATING],
    and the request waits. *)
Theorem sendCommand_starts_attachment m c :
  reachable c ->
  permission (subjects c) = TEMPORARY ->
  attachState (subjects c) = IS_INACTIVE ->
  0 <= attachInterest (subjects c) ->
  exists c',
    sendCommand m c = Some c'
    /\ attachState (subjects c') = ACTIVATING
    /\ attachActions c' = attachActions c ++ [activateTransition]
    /\ waiting c' = waiting c ++ [m]
    /\ commands c' = commands c.
Proof.
  intros Hr Hp Hs Hi. apply reachable_rests in Hr.
  unfold sendCommand, nextAttachInterest.
  set (c0 := withSubjects _ c).
  destruct (deliver_total c0) as [c1 H1]. rewrite H1. cbn [bind].
  assert (Hr1 : AtRest c1).
  { eapply deliver_written_rests; [exact Hr| |exact H1]. reflexivity. }
  apply deliver_effect in H1. destruct H1 as [F A].
  assert (Hw0 : attachmentWanted (subjects c0)).
  { subst c0. split; [exact Hp|]. cbn. unfold CounterSubject.increment. lia. }
  assert (Hw1 : attachmentWanted (subjects c1)) by (apply (Framed_wanted c0 c1 F); exact Hw0).
  destruct F as (_ & _ & _ & Hwt & Hcm & _).
  destruct Hr1 as [_ [[_ Hq] _]].
  assert (Ha : attachState (subjects c1) = ACTIVATING
               /\ attachActions c1 = attachActions c ++ [activateTransition]).
  { destruct A as [[Ha Hl]|[(_ & _ & Ha & Hl)|(Ha & _)]]; subst c0;
      cbn [subjects withSubjects setAttachInterest attachState attachInterest
           permission attachActions] in *.
    - exfalso. apply Hq; [congruence|exact Hw1].
    - split; assumption.
    - congruence. }
  destruct Ha as [Ha Hl]. rewrite Ha. cbn [transition_eqb].
  eexists. split; [reflexivity|]. cbn.
  rewrite Hcm, Hwt. auto.
Qed.

Lemma sendCommand_starts_attachment_witness :
  exists c,
    run initial [GrantTemporary] = Some c
    /\ exists c', sendCommand "A" c = Some c'
                  /\ attachState (subjects c') = ACTIVATING.
Proof.
  eexists. split; [vm_compute; reflexivity|].
  edestruct (sendCommand_starts_attachment "A") as (c' & H1 & H2 & _);
    [exists [GrantTemporary]; vm_compute; reflexivity
    |reflexivity|reflexivity|cbn; lia|].
  exists c'. split; [exact H1|exact H2].
Defined.

Lemma run_listeners es : forall c c',
  run c es = Some c' ->
  webAudioEventInterest (subjects c')
  = webAudioEventInterest (subjects c) + listenersInterest es.
Proof.
  induction es as [|e es IH]; intros c c' H; cbn [run listenersInterest fold_right] in *.
  - injection H as <-. lia.
  - bind_inv H. apply IH in H. apply step_listeners in Hc0.
    unfold listenersInterest in H. lia.
Qed.

(** X12.  The web audio event interest is exactly what [increment] and
    [decrement] made of it, whatever else happens; nothing keeps it from
    going below zero. *)
Theorem webAudioEventInterest_is_counted es c c' :
  run c es = Some c' ->
  webAudioEventInterest (subjects c')
  = webAudioEventInterest (subjects c) + listenersInterest es.
Proof. apply run_listeners. Qed.

Lemma webAudioEventInterest_is_counted_witness :
  exists c',
    run initial [DecrementWebAudioEventInterest; GrantTemporary] = Some c'
    /\ webAudioEventInterest (subjects c') = -1.
Proof.
  eexists. split; [vm_compute; reflexivity|].
  apply (webAudioEventInterest_is_counted
           [DecrementWebAudioEventInterest; GrantTemporary] initial).
  vm_compute. reflexivity.
Defined.

(** X13.  When the [attach] call of an activation completes while the
    subject holds [ACTIVATING]: if the attachment is still wanted, the subject
    becomes [IS_ACTIVE] and every waiting [sendCommand] request sends its
    command; if it is not wanted any more, the subject goes on to
    [DEACTIVATING] and [chrome.debugger.detach] is called at once. *)
Theorem attach_completes i c :
  reachable c ->
  attachState (subjects c) = ACTIVATING ->
  nth_error (attachActions c) i = Some activateTransition ->
  exists c',
    actionSettled AttachState i Completed c = Some c'
    /\ commands c' = commands c ++ waiting c
    /\ waiting c' = []
    /\ (attachmentWanted (subjects c) ->
          attachState (subjects c') = IS_ACTIVE
          /\ attachActions c' = removeAt i (attachActions c))
    /\ (~ attachmentWanted (subjects c) ->
          attachState (subjects c') = DEACTIVATING
          /\ attachActions c' = removeAt i (attachActions c) ++ [deactivateTransition]).
Proof.
  intros Hr Hs Hd. apply reachable_rests in Hr.
  unfold actionSettled. cbn [actionsOf]. rewrite Hd.
  cbn [withActions valueOf subjects withAttachActions BinaryTransitionSubject.settle].
  unfold BinaryTransitionSubject.onComplete. rewrite Hs.
  cbn [intermediateState activateTransition transition_eqb successState].
  set (c1 := withAttachActions _ c).
  unfold nextState, next.
  destruct (deliver_total (store AttachState IS_ACTIVE c1)) as [c2 H2].
  rewrite H2. cbn [bind transition_eqb].
  assert (Hr2 : AtRest c2).
  { eapply deliver_written_rests; [exact Hr| |exact H2]. reflexivity. }
  apply deliver_effect in H2. destruct H2 as [F A].
  pose proof (Framed_wanted _ _ F) as Hw.
  destruct F as (_ & _ & _ & Hwt & Hcm & _).
  destruct Hr2 as [_ [[Hq _] _]].
  eexists. split; [reflexivity|].
  cbn [startWaiting commands waiting subjects attachActions withWaiting withCommands].
  split; [now rewrite Hcm, Hwt|]. split; [reflexivity|].
  change (attachmentWanted (subjects (store AttachState IS_ACTIVE c1)))
    with (attachmentWanted (subjects c)) in Hw.
  destruct A as [[Ha Hl]|[(Ha & _)|(_ & Hn & Ha & Hl)]]; cbn in Ha; try discriminate.
  - split; [intros _; split; [exact Ha|exact Hl]|].
    intros Hn. exfalso. apply Hn, Hw, Hq, Ha.
  - split; [intros Hy; contradiction|].
    intros _. split; [exact Ha|exact Hl].
Qed.

Lemma attach_completes_witness :
  exists c,
    run initial [GrantTemporary; SendCommand "A"] = Some c
    /\ exists c', actionSettled AttachState 0 Completed c = Some c'
                  /\ commands c' = commands c ++ waiting c.
Proof.
  eexists. split; [vm_compute; reflexivity|].
  edestruct (attach_completes 0%nat) as (c' & H1 & H2 & _);
    [exists [GrantTemporary; SendCommand "A"]; vm_compute; reflexivity
    |reflexivity|reflexivity|].
  exists c'. split; [exact H1|exact H2].
Defined.

(** X14.  When the last attachment interest is released while the
    attachment is [IS_ACTIVE], [chrome.debugger.detach] is called and the
    attachment subject holds [DEACTIVATING]; the web audio event subject is
    set to [IS_INACTIVE] without a [disable] command.  The third
    subscription then still runs on the combined state from before the
    deactivation: if there is web audio event interest it sends an [enable]
    command, and the subject is forced back to [IS_INACTIVE]. *)
Theorem last_interest_released c :
  reachable c ->
  attachState (subjects c) = IS_ACTIVE ->
  attachInterest (subjects c) = 1 ->
  exists c',
    step c DecrementAttachInterest = Some c'
    /\ attachState (subjects c') = DEACTIVATING
    /\ attachActions c' = attachActions c ++ [deactivateTransition]
    /\ webAudioEventState (subjects c') = IS_INACTIVE
    /\ webAudioEventActions c'
       = webAudioEventActions c
         ++ (if 0 <? webAudioEventInterest (subjects c)
             then [activateTransition] else []).
Proof.
  intros Hr Hs Hi. apply reachable_rests in Hr. destruct Hr as [Hp [[Hw _] _]].
  destruct (Hw Hs) as [Ht _].
  destruct c as [[p a s w e] prev aa wa wt cm u].
  cbn [subjects previous attachState attachInterest permission] in *. subst.
  destruct e; destruct (0 <? w) eqn:Hl;
    repeat (cbv -[Z.eqb Z.ltb app]; rewrite ?Z.eqb_refl, ?Hl;
            change (1 =? 0) with false; change (0 <? 0) with false);
    eexists; repeat split; rewrite ?app_nil_r; reflexivity.
Qed.

Lemma last_interest_released_witness :
  reachable bothActive
  /\ exists c',
      step bothActive DecrementAttachInterest = Some c'
      /\ webAudioEventActions c' = [activateTransition].
Proof.
  assert (Hr : reachable bothActive)
    by (exists attachedAndListening; vm_compute; reflexivity).
  split; [exact Hr|].
  destruct (last_interest_released bothActive Hr eq_refl eq_refl)
    as (c' & H1 & _ & _ & _ & H2).
  exists c'. split; [exact H1|exact H2].
Defined.

(** * Traces *)

(** ** The traced operations return the controller the plain ones return *)

Section TracedErasure.

Variable redeliver : Controller -> option Controller.
Variable redeliverTraced : Controller -> Traced.
Hypothesis redeliver_erases : forall c, erase (redeliverTraced c) = redeliver c.

Lemma nextTraced_erases x v c :
  erase (nextTraced redeliverTraced x v c) = next redeliver x v c.
Proof.
  unfold nextTraced, next. rewrite <- redeliver_erases.
  destruct (redeliverTraced (store x v c)) as [[c1 l]|]; reflexivity.
Qed.

Lemma transitionTraced_erases x d c :
  erase (transitionTraced redeliverTraced x d c) = transition redeliver x d c.
Proof.
  unfold transitionTraced, transition.
  destruct (transition_eqb _ _); [|reflexivity].
  rewrite <- nextTraced_erases.
  destruct (nextTraced redeliverTraced x (intermediateState d) c) as [[c1 l]|];
    reflexivity.
Qed.

Lemma governAttachmentTraced_erases state c :
  erase (governAttachmentTraced redeliverTraced state c)
  = governAttachment redeliver state c.
Proof.
  unfold governAttachmentTraced, governAttachment, activate, deactivate.
  destruct (_ && _); apply transitionTraced_erases.
Qed.

Lemma governWebAudioEventsTraced_erases state c :
  erase (governWebAudioEventsTraced redeliverTraced state c)
  = governWebAudioEvents redeliver state c.
Proof.
  unfold governWebAudioEventsTraced, governWebAudioEvents, activate, deactivate.
  destruct (_ && _); [apply transitionTraced_erases|].
  destruct (transition_eqb _ _); [apply transitionTraced_erases|].
  apply nextTraced_erases.
Qed.

Lemma deliverBodyTraced_erases c :
  erase (deliverBodyTraced redeliverTraced c) = deliverBody redeliver c.
Proof.
  unfold deliverBodyTraced, deliverBody.
  destruct (sameState _ _); [reflexivity|].
  rewrite <- governAttachmentTraced_erases.
  destruct (governAttachmentTraced redeliverTraced (subjects c)
              (withPrevious (subjects c) c)) as [[c1 l1]|]; [|reflexivity].
  cbn [erase option_map bind fst snd].
  rewrite <- governWebAudioEventsTraced_erases.
  destruct (governWebAudioEventsTraced redeliverTraced (subjects c) c1) as [[c2 l2]|];
    reflexivity.
Qed.

End TracedErasure.

Lemma deliverTraced_erases fuel : forall c,
  erase (deliverTraced fuel c) = deliver fuel c.
Proof.
  induction fuel as [|n IH]; intros c; [reflexivity|].
  cbn [deliverTraced deliver]. now apply deliverBodyTraced_erases.
Qed.

Lemma nextStateTraced_erases x v c :
  erase (nextStateTraced x v c) = nextState x v c.
Proof. apply nextTraced_erases. apply deliverTraced_erases. Qed.

Lemma rejectTraced_erases c : erase (rejectTraced c) = reject c.
Proof.
  unfold rejectTraced, reject. destruct (PermissionSubject.reject _); [|reflexivity].
  apply deliverTraced_erases.
Qed.

Lemma stepTraced_erases c e : erase (stepTraced c e) = step c e.
Proof.
  destruct e; cbn [stepTraced step];
    try (apply deliverTraced_erases).
  - unfold grantTemporary. destruct (PermissionSubject.grantTemporary _); [|reflexivity].
    apply deliverTraced_erases.
  - apply rejectTraced_erases.
  - unfold onDebuggerDetach. destruct (String.eqb reason canceledByUser).
    + rewrite <- rejectTraced_erases.
      destruct (rejectTraced c) as [[c1 l1]|]; [|reflexivity].
      cbn [erase option_map bind fst snd]. rewrite <- nextStateTraced_erases.
      destruct (nextStateTraced AttachState IS_INACTIVE c1) as [[c2 l2]|]; reflexivity.
    + cbn [bind fst snd]. rewrite <- nextStateTraced_erases.
      destruct (nextStateTraced AttachState IS_INACTIVE c) as [[c2 l2]|]; reflexivity.
  - unfold actionSettled. destruct (nth_error _ i) as [d|]; [|reflexivity].
    cbv zeta. destruct (BinaryTransitionSubject.settle _ _ _); try reflexivity.
    apply nextStateTraced_erases.
  - unfold sendCommand, nextAttachInterest. rewrite <- deliverTraced_erases.
    destruct (deliverTraced depth _) as [[c1 l1]|]; reflexivity.
  - unfold commandSettled. destruct (nth_error _ i); [|reflexivity].
    apply deliverTraced_erases.
Qed.

Lemma runTraced_erases es : forall c, erase (runTraced c es) = run c es.
Proof.
  induction es as [|e es IH]; intros c; [reflexivity|].
  cbn [runTraced run]. rewrite <- stepTraced_erases.
  destruct (stepTraced c e) as [[c1 l1]|]; [|reflexivity].
  cbn [erase option_map bind fst snd]. rewrite <- IH.
  destruct (runTraced c1 es) as [[c2 l2]|]; reflexivity.
Qed.

Lemma erase_Some (t : Traced) c l : t = Some (c, l) -> erase t = Some c.
Proof. now intros ->. Qed.

(** ** When [chrome.debugger.attach] is called, by the trace *)

Lemma attaches_inv x d : Called x d = attaches -> x = AttachState /\ d = activateTransition.
Proof. unfold attaches. intros H. injection H as -> ->. auto. Qed.

Section TracedAttach.

Variable redeliver : Controller -> Traced.
Hypothesis redeliver_attaches :
  forall c c' l, redeliver c = Some (c', l) ->
                 Framed c c' /\ (In attaches l -> attachmentWanted (subjects c)).

Lemma nextTraced_attaches x v c c' l :
  (x = AttachState -> v <> IS_ACTIVE) ->
  nextTraced redeliver x v c = Some (c', l) ->
  Framed c c' /\ (In attaches l -> attachmentWanted (subjects c)).
Proof.
  unfold nextTraced. intros Hv H.
  destruct (redeliver (store x v c)) as [[c1 l1]|] eqn:H1; [|discriminate].
  cbn [bind fst snd] in H.
  assert (Hc : c' = c1 /\ l = l1).
  { destruct x; [rewrite transition_eqb_neq in H by auto|];
      injection H as <- <-; auto. }
  destruct Hc as [-> ->]. apply redeliver_attaches in H1. destruct H1 as [F Hin].
  split; [eapply Framed_trans; [apply Framed_store|exact F]|].
  intros Hl. apply (Framed_wanted c (store x v c) (Framed_store x v c)). auto.
Qed.

Lemma transitionTraced_attaches x d c c' l :
  intermediateState d <> IS_ACTIVE ->
  (x = AttachState -> d = activateTransition -> attachmentWanted (subjects c)) ->
  transitionTraced redeliver x d c = Some (c', l) ->
  Framed c c' /\ (In attaches l -> attachmentWanted (subjects c)).
Proof.
  unfold transitionTraced. intros Hd Hw H.
  destruct (transition_eqb _ _).
  - destruct (nextTraced redeliver x (intermediateState d) c) as [[c1 l1]|] eqn:H1;
      [|discriminate].
    cbn [bind fst snd] in H. injection H as <- <-.
    apply nextTraced_attaches in H1; [|auto]. destruct H1 as [F Hin].
    split; [eapply Framed_trans; [exact F|apply Framed_started]|].
    intros Hl. apply in_app_or in Hl. destruct Hl as [Hl|[Hl|[]]]; [auto|].
    apply attaches_inv in Hl. destruct Hl as [Hx Hy]. auto.
  - injection H as <- <-. split; [apply Framed_refl|]. intros [].
Qed.

Lemma deliverBodyTraced_attaches c c' l :
  deliverBodyTraced redeliver c = Some (c', l) ->
  Framed c c' /\ (In attaches l -> attachmentWanted (subjects c)).
Proof.
  unfold deliverBodyTraced. destruct (sameState _ _).
  - intros H. injection H as <- <-. split; [apply Framed_refl|]. intros [].
  - intros H.
    destruct (governAttachmentTraced redeliver (subjects c)
                (withPrevious (subjects c) c)) as [[c1 l1]|] eqn:H1; [|discriminate].
    cbn [bind fst snd] in H.
    destruct (governWebAudioEventsTraced redeliver (subjects c) c1)
      as [[c2 l2]|] eqn:H2; [|discriminate].
    cbn [bind fst snd] in H. injection H as <- <-.
    assert (A1 : Framed (withPrevious (subjects c) c) c1
                 /\ (In attaches l1 -> attachmentWanted (subjects c))).
    { revert H1. unfold governAttachmentTraced.
      destruct (permission_eqb_spec (permission (subjects c)) TEMPORARY) as [Hp|Hp];
        [destruct (Z.ltb_spec 0 (attachInterest (subjects c))) as [Hi|Hi]|];
        cbn [andb]; intros H1;
        (apply transitionTraced_attaches in H1; [exact H1|discriminate|]).
      - intros _ _. split; assumption.
      - intros _ Hd. discriminate.
      - intros _ Hd. discriminate. }
    assert (A2 : Framed c1 c2 /\ (In attaches l2 -> attachmentWanted (subjects c1))).
    { revert H2. unfold governWebAudioEventsTraced.
      destruct (_ && _);
        [intros H2; apply transitionTraced_attaches in H2;
         [exact H2|discriminate|discriminate]|].
      destruct (transition_eqb _ _);
        [intros H2; apply transitionTraced_attaches in H2;
         [exact H2|discriminate|discriminate]|].
      intros H2. apply nextTraced_attaches in H2; [exact H2|discriminate]. }
    destruct A1 as [F1 I1], A2 as [F2 I2].
    split; [eapply Framed_trans; [|exact F2]; exact F1|].
    intros [Hl|Hl]; [discriminate|].
    apply in_app_or in Hl. destruct Hl as [Hl|Hl]; [auto|].
    apply (Framed_wanted _ _ F1). auto.
Qed.

End TracedAttach.

Lemma deliverTraced_attaches fuel : forall c c' l,
  deliverTraced fuel c = Some (c', l) ->
  Framed c c' /\ (In attaches l -> attachmentWanted (subjects c)).
Proof.
  induction fuel as [|n IH]; intros c c' l H; [discriminate|].
  cbn [deliverTraced] in H. eapply deliverBodyTraced_attaches; eauto.
Qed.

Lemma deliverTraced_wanted c c' l :
  deliverTraced depth c = Some (c', l) ->
  In attaches l -> attachmentWanted (subjects c').
Proof.
  intros H Hl. apply deliverTraced_attaches in H. destruct H as [F Hin].
  apply (Framed_wanted _ _ F). auto.
Qed.

Lemma nextStateTraced_wanted x v c c' l :
  nextStateTraced x v c = Some (c', l) ->
  In attaches l -> attachmentWanted (subjects c').
Proof.
  unfold nextStateTraced, nextTraced. intros H Hl.
  destruct (deliverTraced depth (store x v c)) as [[c1 l1]|] eqn:H1; [|discriminate].
  cbn [bind fst snd] in H.
  assert (Hc : subjects c' = subjects c1 /\ l = l1).
  { destruct x; [destruct (transition_eqb v IS_ACTIVE)|]; injection H as <- <-; auto. }
  destruct Hc as [Hs ->]. rewrite Hs. eapply deliverTraced_wanted; eauto.
Qed.

Lemma rejectTraced_attaches c c' l :
  rejectTraced c = Some (c', l) -> ~ In attaches l.
Proof.
  intros H Hl. pose proof (erase_Some _ _ _ H) as He.
  rewrite rejectTraced_erases in He. apply reject_permission in He.
  unfold rejectTraced in H. destruct (PermissionSubject.reject _).
  - apply deliverTraced_wanted in H; [|exact Hl]. destruct H as [Hp _]. congruence.
  - injection H as <- <-. destruct Hl.
Qed.

Lemma stepTraced_attaches c e c' l :
  stepTraced c e = Some (c', l) ->
  In attaches l -> attachmentWanted (subjects c').
Proof.
  destruct e; cbn [stepTraced]; intros H Hl;
    try (eapply deliverTraced_wanted; eauto; fail).
  - destruct (PermissionSubject.grantTemporary _).
    + eapply deliverTraced_wanted; eauto.
    + injection H as <- <-. destruct Hl.
  - exfalso. eapply rejectTraced_attaches; eauto.
  - assert (H1 : exists c1 l1 l2,
               nextStateTraced AttachState IS_INACTIVE c1 = Some (c', l2)
               /\ l = l1 ++ l2 /\ ~ In attaches l1).
    { destruct (String.eqb reason canceledByUser).
      - destruct (rejectTraced c) as [[c1 l1]|] eqn:H1; [|discriminate].
        cbn [bind fst snd] in H.
        destruct (nextStateTraced AttachState IS_INACTIVE c1) as [[c2 l2]|] eqn:H2;
          [|discriminate].
        cbn [bind fst snd] in H. injection H as <- <-.
        exists c1, l1, l2. split; [exact H2|]. split; [reflexivity|].
        eapply rejectTraced_attaches; eauto.
      - cbn [bind fst snd] in H.
        destruct (nextStateTraced AttachState IS_INACTIVE c) as [[c2 l2]|] eqn:H2;
          [|discriminate].
        cbn [bind fst snd] in H. injection H as <- <-.
        exists c, [], l2. split; [exact H2|]. split; [reflexivity|]. intros []. }
    destruct H1 as (c1 & l1 & l2 & H2 & -> & Hn).
    apply in_app_or in Hl. destruct Hl as [Hl|Hl]; [contradiction|].
    eapply nextStateTraced_wanted; eauto.
  - destruct (nth_error _ i) as [d|]; [|discriminate]. cbv zeta in H.
    destruct (BinaryTransitionSubject.settle _ _ _).
    + eapply nextStateTraced_wanted; eauto.
    + injection H as <- <-. destruct Hl.
    + injection H as <- <-. destruct Hl.
  - destruct (deliverTraced depth _) as [[c1 l1]|] eqn:H1; [|discriminate].
    cbn [bind fst snd] in H.
    assert (Hc : subjects c' = subjects c1 /\ l = l1).
    { destruct (transition_eqb _ _); injection H as <- <-; auto. }
    destruct Hc as [Hs ->]. rewrite Hs. eapply deliverTraced_wanted; eauto.
  - destruct (nth_error _ i); [|discriminate].
    eapply deliverTraced_wanted; eauto.
Qed.

Lemma runTraced_rejected es : forall c c' l,
  runTraced c es = Some (c', l) ->
  permission (subjects c) = REJECTED -> ~ In attaches l.
Proof.
  induction es as [|e es IH]; intros c c' l H Hp Hl; cbn [runTraced] in H.
  - injection H as <- <-. destruct Hl.
  - destruct (stepTraced c e) as [[c1 l1]|] eqn:H1; [|discriminate].
    cbn [bind fst snd] in H.
    destruct (runTraced c1 es) as [[c2 l2]|] eqn:H2; [|discriminate].
    cbn [bind fst snd] in H. injection H as <- <-.
    assert (Hp1 : permission (subjects c1) = REJECTED).
    { pose proof (erase_Some _ _ _ H1) as He. rewrite stepTraced_erases in He.
      apply (run_rejected [e] c c1); [|exact Hp]. cbn [run]. now rewrite He. }
    apply in_app_or in Hl. destruct Hl as [Hl|Hl].
    + apply (stepTraced_attaches _ _ _ _ H1) in Hl. destruct Hl as [Hw _]. congruence.
    + eapply IH; eauto.
Qed.

(** ** A request that is never served *)

Lemma deliver_stranded m c c' :
  Stranded m c -> deliver depth c = Some c' -> Stranded m c'.
Proof.
  intros (Hp & Hs & Ha & Hc & Hw) H. apply deliver_effect in H.
  destruct H as [(Fp & _ & _ & Fw & Fc & _) A]. unfold Stranded.
  rewrite Fp, Fw, Fc.
  destruct A as [[As Al]|[(_ & [Hq _] & _)|(Hq & _)]];
    [|exfalso; congruence|exfalso; congruence].
  rewrite As, Al. auto.
Qed.

Lemma nextState_stranded m x v c c' :
  Stranded m c ->
  (x = AttachState -> v = IS_INACTIVE) ->
  nextState x v c = Some c' -> Stranded m c'.
Proof.
  intros Hs Hv H. unfold nextState, next in H. bind_inv H.
  apply (deliver_stranded m) in Hc0.
  - destruct x; [rewrite (Hv eq_refl) in H|]; injection H as <-; exact Hc0.
  - destruct Hs as (Hp & Hs & Ha & Hc & Hw).
    destruct x; [rewrite (Hv eq_refl)|]; repeat split; assumption.
Qed.

Lemma step_stranded m c e c' : Stranded m c -> step c e = Some c' -> Stranded m c'.
Proof.
  intros Hs H. pose proof Hs as (Hp & Hi & Ha & Hc & Hw).
  destruct e; cbn [step] in H;
    try (apply (deliver_stranded m) in H; [exact H|];
         repeat split; assumption).
  - unfold grantTemporary, PermissionSubject.grantTemporary in H. rewrite Hp in H.
    now injection H as <-.
  - unfold reject, PermissionSubject.reject in H. rewrite Hp in H.
    now injection H as <-.
  - unfold onDebuggerDetach in H. bind_inv H.
    assert (Hc1 : c0 = c).
    { destruct (String.eqb reason canceledByUser); [|congruence].
      unfold reject, PermissionSubject.reject in Hc0. rewrite Hp in Hc0.
      cbn [permission_eqb negb] in Hc0. congruence. }
    subst c0. eapply nextState_stranded; [exact Hs| |exact H]. auto.
  - unfold actionSettled in H. destruct x; cbn [actionsOf] in H.
    + rewrite Ha in H. destruct i; discriminate.
    + destruct (nth_error _ i) as [d|]; [|discriminate].
      set (c1 := withActions WebAudioEventState _ c) in H.
      assert (Hs1 : Stranded m c1) by (repeat split; assumption).
      destruct (BinaryTransitionSubject.settle d _ o).
      * eapply nextState_stranded; [exact Hs1| |exact H]. discriminate.
      * now injection H as <-.
      * injection H as <-. exact Hs1.
  - unfold sendCommand in H. bind_inv H.
    apply (deliver_stranded m) in Hc0; [|repeat split; assumption].
    destruct Hc0 as (Hp0 & Hi0 & Ha0 & Hc0' & Hw0).
    rewrite Hi0 in H. cbn [transition_eqb] in H. injection H as <-.
    repeat split; try assumption. cbn. apply in_or_app. now left.
  - unfold commandSettled in H. rewrite Hc in H. destruct i; discriminate.
Qed.

Lemma run_stranded m es : forall c c',
  Stranded m c -> run c es = Some c' -> Stranded m c'.
Proof.
  induction es as [|e es IH]; intros c c' Hs H; cbn [run] in H.
  - now injection H as <-.
  - bind_inv H. eapply IH; [|exact H]. eapply step_stranded; eauto.
Qed.

(** ** The interest and the subscriptions of [sendCommand] *)

Lemma sendCommand_fused m c :
  sendCommand m c = (c1 <- sendCommandCall c ;; Some (sendCommandSubscribe m c1)).
Proof. reflexivity. Qed.

Lemma step_unsettled c e c' :
  step c e = Some c' ->
  unsettled c'
  = unsettled c + subscriptionsIn (Controls e) - finalizedIn (Controls e).
Proof.
  destruct e; cbn [step subscriptionsIn finalizedIn]; intros H;
    try (apply deliver_unsettled in H; destruct H as [_ ->];
         unfold unsettled; cbn; lia).
  - unfold grantTemporary in H. destruct (PermissionSubject.grantTemporary _).
    + apply deliver_unsettled in H. destruct H as [_ ->]. unfold unsettled; cbn; lia.
    + injection H as <-. lia.
  - unfold reject in H. destruct (PermissionSubject.reject _).
    + apply deliver_unsettled in H. destruct H as [_ ->]. unfold unsettled; cbn; lia.
    + injection H as <-. lia.
  - unfold onDebuggerDetach in H. bind_inv H.
    apply nextState_unsettled in H. destruct H as [_ ->].
    destruct (String.eqb reason canceledByUser).
    + unfold reject in Hc0. destruct (PermissionSubject.reject _).
      * apply deliver_unsettled in Hc0. destruct Hc0 as [_ ->].
        unfold unsettled; cbn; lia.
      * injection Hc0 as <-. lia.
    + injection Hc0 as <-. lia.
  - unfold actionSettled in H. destruct (nth_error _ i) as [d|]; [|discriminate].
    set (c1 := withActions x _ c) in H.
    assert (H1 : unsettled c1 = unsettled c) by (destruct x; reflexivity).
    destruct (BinaryTransitionSubject.settle d _ o).
    + apply nextState_unsettled in H. lia.
    + injection H as <-. lia.
    + injection H as <-.
      change (unsettled (withUnhandled (S (unhandled c1)) c1)) with (unsettled c1). lia.
  - apply sendCommand_effect in H. lia.
  - apply commandSettled_effect in H. lia.
Qed.

Lemma hostStep_accounted h e h' :
  hostStep h e = Some h' ->
  attachInterest (subjects (controller h'))
  = attachInterest (subjects (controller h)) + consumerIn e + callsIn e - finalizedIn e
  /\ unsettled (controller h')
     = unsettled (controller h) + subscriptionsIn e - finalizedIn e.
Proof.
  destruct e as [e|m|j|i]; cbn [hostStep]; intros H.
  - bind_inv H. injection H as <-. cbn [controller].
    pose proof (step_unsettled _ _ _ Hc) as Hu.
    pose proof (step_balance _ _ _ Hc) as Hb.
    split; [|exact Hu].
    assert (Hcs : callsIn (Controls e) = subscriptionsIn (Controls e))
      by (destruct e; reflexivity).
    cbn [consumerIn]. lia.
  - bind_inv H. injection H as <-. cbn [controller consumerIn callsIn finalizedIn subscriptionsIn].
    unfold sendCommandCall, nextAttachInterest in Hc.
    apply deliver_unsettled in Hc. destruct Hc as [Ha Hu].
    cbn in Ha. unfold CounterSubject.increment in Ha.
    change (unsettled (withSubjects
              (setAttachInterest (CounterSubject.increment
                 (attachInterest (subjects (controller h))))
                 (subjects (controller h))) (controller h)))
      with (unsettled (controller h)) in Hu.
    lia.
  - destruct (nth_error (returned h) j) as [m|]; [|discriminate].
    injection H as <-. cbn [controller consumerIn callsIn finalizedIn subscriptionsIn].
    unfold sendCommandSubscribe, unsettled.
    destruct (transition_eqb _ _); cbn; rewrite length_app; cbn; split; lia.
  - bind_inv H. injection H as <-. cbn [controller consumerIn callsIn finalizedIn subscriptionsIn].
    unfold waitingUnsubscribed in Hc.
    destruct (nth_error (waiting (controller h)) i) as [m|] eqn:Hm; [|discriminate].
    unfold nextAttachInterest in Hc.
    apply deliver_unsettled in Hc. destruct Hc as [Ha Hu].
    cbn in Ha. unfold CounterSubject.decrement in Ha.
    apply length_removeAt in Hm.
    unfold unsettled in *. cbn in Hu. lia.
Qed.

Lemma hostRun_accounted es : forall h h',
  hostRun h es = Some h' ->
  attachInterest (subjects (controller h'))
  = attachInterest (subjects (controller h))
    + total consumerIn es + total callsIn es - total finalizedIn es
  /\ unsettled (controller h')
     = unsettled (controller h) + total subscriptionsIn es - total finalizedIn es.
Proof.
  induction es as [|e es IH]; intros h h' H; cbn [hostRun total fold_right] in *.
  - injection H as <-. lia.
  - apply bind_Some in H. destruct H as (h1 & H1 & H).
    apply IH in H. apply hostStep_accounted in H1. unfold total in H. lia.
Qed.

(** ** C1: inside one event *)

(** C1 fails as stated.  The attachment and the web audio events are both
    active when the last attachment interest is released.  While that one
    event is handled, the attachment subject is set to [DEACTIVATING] and the
    combined state, with the web audio event subject still [IS_ACTIVE], passes
    [distinctUntilChanged] and is handed to the subscribers of
    [combinedState$]; only then does the third subscription set the web audio
    event subject to [IS_INACTIVE]. *)
Lemma webAudioEvents_active_while_detaching :
  reachable bothActive
  /\ exists c' log,
      stepTraced bothActive DecrementAttachInterest = Some (c', log)
      /\ step bothActive DecrementAttachInterest = Some c'
      /\ In (Delivered {| permission := TEMPORARY;
                          attachInterest := 0;
                          attachState := DEACTIVATING;
                          webAudioEventInterest := 1;
                          webAudioEventState := IS_ACTIVE |}) log
      /\ webAudioEventState (subjects c') = IS_INACTIVE.
Proof.
  split; [exists attachedAndListening; vm_compute; reflexivity|].
  do 2 eexists. split; [vm_compute; reflexivity|].
  split; [vm_compute; reflexivity|].
  split; [right; left; reflexivity|reflexivity].
Qed.

(** ** C8: the interest, the calls and the subscriptions *)

(** C8 fails as stated.  A [sendCommand] call made after the permission was
    rejected adds one to the attachment interest and waits for an attachment
    that is never made: whatever events follow, the request is still waiting
    and the interest is above what the other consumers added. *)
Lemma rejected_request_keeps_interest :
  exists c,
    run initial [Reject; SendCommand "A"] = Some c
    /\ attachInterest (subjects c) = 1
    /\ waiting c = ["A"%string]
    /\ commands c = []
    /\ forall es c',
        run c es = Some c' ->
        In "A"%string (waiting c')
        /\ consumersInterest es < attachInterest (subjects c').
Proof.
  eexists. split; [vm_compute; reflexivity|].
  split; [reflexivity|]. split; [reflexivity|]. split; [reflexivity|].
  intros es c' H.
  match type of H with run ?c0 _ = _ =>
    assert (Hs : Stranded "A" c0)
      by (repeat split; try reflexivity; left; reflexivity)
  end.
  pose proof (run_stranded _ _ _ _ Hs H) as (_ & _ & _ & _ & Hw).
  split; [exact Hw|].
  apply run_balance in H. cbn in H.
  assert (Hu : 0 < unsettled c').
  { unfold unsettled. destruct (waiting c'); [destruct Hw|]. cbn. lia. }
  change (attachInterest (subjects c') - unsettled c' = 1 - 1 + consumersInterest es) in H.
  lia.
Qed.

(** C8, amended.  Every [sendCommand] call adds one to the attachment
    interest, at the call.  Every subscription of the observable the call
    returned takes one away, once, when it is finalized: when its command has
    called back, completed or failed, or when it is unsubscribed while it
    waits.  So after any sequence of events the interest is what the other
    consumers added, plus the calls, minus the subscriptions finalized; and
    the subscriptions not yet finalized are the requests waiting or in
    flight.  With each observable subscribed once, the interest is back where
    the consumers left it exactly when no request is left waiting or in
    flight. *)
Theorem sendCommand_interest_accounted es h :
  hostRun initialHost es = Some h ->
  attachInterest (subjects (controller h))
  = total consumerIn es + total callsIn es - total finalizedIn es
  /\ unsettled (controller h) = total subscriptionsIn es - total finalizedIn es
  /\ (total callsIn es = total subscriptionsIn es ->
      attachInterest (subjects (controller h))
      = total consumerIn es + unsettled (controller h)).
Proof.
  intros H. apply hostRun_accounted in H. destruct H as [Ha Hu].
  change (attachInterest (subjects (controller initialHost))) with 0 in Ha.
  change (unsettled (controller initialHost)) with 0 in Hu.
  split; [lia|]. split; [lia|]. intros He. lia.
Qed.

Lemma sendCommand_interest_accounted_witness :
  exists h,
    hostRun initialHost
      [Calls "A"; Subscribes 0; Subscribes 0; Controls GrantTemporary;
       Controls (ActionSettled AttachState 0 Completed);
       Controls (CommandSettled 0 Completed);
       Controls (CommandSettled 0 (Failed notAttached))] = Some h
    /\ attachInterest (subjects (controller h)) = -1.
Proof.
  eexists. split; [vm_compute; reflexivity|].
  refine (proj1 (sendCommand_interest_accounted
                   [Calls "A"; Subscribes 0; Subscribes 0; Controls GrantTemporary;
                    Controls (ActionSettled AttachState 0 Completed);
                    Controls (CommandSettled 0 Completed);
                    Controls (CommandSettled 0 (Failed notAttached))] _ _)).
  vm_compute. reflexivity.
Defined.

(** ** X4, X5: the calls of [chrome.debugger.attach] *)

(** X4.  Whatever event is handled, [chrome.debugger.attach] is called
    while it is handled only if, when it has been handled, the permission is
    [TEMPORARY] and the attachment interest is positive. *)
Theorem attach_called_only_when_wanted c e c' l :
  stepTraced c e = Some (c', l) ->
  In attaches l ->
  step c e = Some c'
  /\ permission (subjects c') = TEMPORARY
  /\ 0 < attachInterest (subjects c').
Proof.
  intros H Hl. split.
  - rewrite <- stepTraced_erases. now rewrite H.
  - exact (stepTraced_attaches c e c' l H Hl).
Qed.

Lemma attach_called_only_when_wanted_witness :
  exists c c' l,
    run initial [GrantTemporary] = Some c
    /\ stepTraced c IncrementAttachInterest = Some (c', l)
    /\ In attaches l
    /\ permission (subjects c') = TEMPORARY
    /\ 0 < attachInterest (subjects c').
Proof.
  do 3 eexists. split; [vm_compute; reflexivity|].
  match goal with
  | |- ?P /\ _ => assert (H : P) by (vm_compute; reflexivity)
  end.
  split; [exact H|].
  match goal with
  | |- In attaches ?l /\ _ => assert (Hl : In attaches l) by (cbn; auto 10)
  end.
  split; [exact Hl|].
  exact (proj2 (attach_called_only_when_wanted _ _ _ _ H Hl)).
Defined.

(** X5.  Once the permission is [REJECTED], no sequence of events (grants,
    interest, commands, notifications, callbacks) makes the controller call
    [chrome.debugger.attach], and the permission stays [REJECTED]. *)
Theorem rejected_never_attaches es c c' l :
  runTraced c es = Some (c', l) ->
  permission (subjects c) = REJECTED ->
  run c es = Some c'
  /\ ~ In attaches l
  /\ permission (subjects c') = REJECTED.
Proof.
  intros H Hp.
  assert (Hr : run c es = Some c') by (rewrite <- runTraced_erases; now rewrite H).
  split; [exact Hr|]. split.
  - eapply runTraced_rejected; eauto.
  - eapply run_rejected; eauto.
Qed.

Lemma rejected_never_attaches_witness :
  exists c' l,
    runTraced detachedWhileActivating
      [GrantTemporary; SendCommand "A"; ActionSettled AttachState 0 Completed]
    = Some (c', l)
    /\ ~ In attaches l
    /\ permission (subjects c') = REJECTED.
Proof.
  do 2 eexists. split; [vm_compute; reflexivity|].
  refine (proj2 (rejected_never_attaches
                   [GrantTemporary; SendCommand "A"; ActionSettled AttachState 0 Completed]
                   detachedWhileActivating _ _ _ eq_refl)).
  vm_compute. reflexivity.
Defined.
